(** * AllToAllThunk: the CPU runtime thunk of the all-to-all collective

    A shallow embedding of [xla/service/cpu/runtime/all_to_all_thunk.cc]
    ([AllToAllThunk::Create], the constructor and [AllToAllThunk::Execute]),
    together with the declarations it uses from the collective thunk base,
    and the properties of the thunk stated over that embedding. *)

From Stdlib Require Import String ZArith List Bool Lia.
Import ListNotations.
Open Scope Z_scope.

(** ** absl::Status and absl::StatusOr *)

Inductive StatusCode : Type :=
| kCancelled | kUnknown | kInvalidArgument | kDeadlineExceeded | kNotFound
| kFailedPrecondition | kInternal | kUnavailable.

(** A non-OK status: its code and its message. *)
Record StatusError : Type := mkError {
  code : StatusCode;
  message : string
}.

Inductive Status : Type :=
| OkStatus
| ErrorStatus (e : StatusError).

Inductive StatusOr (A : Type) : Type :=
| Value (a : A)
| NotOk (e : StatusError).
Arguments Value {A} a.
Arguments NotOk {A} e.

(** ** Shapes, slices and device memory *)

Inductive PrimitiveType : Type :=
| PRED | S8 | S16 | S32 | S64 | U8 | U16 | U32 | U64 | F16 | BF16 | F32 | F64.

(** [xla::Shape], as far as the thunk reads it: an array shape with an
    element type and its dimensions. *)
Record Shape : Type := mkShape {
  element_type : PrimitiveType;
  dimensions : list Z
}.

Definition ByteSizeOfPrimitiveType (t : PrimitiveType) : Z :=
  match t with
  | PRED | S8 | U8 => 1
  | S16 | U16 | F16 | BF16 => 2
  | S32 | U32 | F32 => 4
  | S64 | U64 | F64 => 8
  end.

(** Number of elements of an array shape: the product of its dimensions. *)
Definition ElementsIn (s : Shape) : Z :=
  fold_right Z.mul 1 (dimensions s).

(** Modelled from the spec: [ShapeUtil::ByteSizeOf] is defined in
    shape_util.cc, outside this file.  The spec gives the byte size of the
    destination element shape as elementCount x elementByteWidth. *)
Definition ByteSizeOf (s : Shape) : Z :=
  ElementsIn s * ByteSizeOfPrimitiveType (element_type s).

(** An untyped address ([void*]). *)
Definition ptr : Type := Z.

(** [BufferAllocation::Slice] (declared in buffer_assignment.h): a symbolic
    region of a buffer allocation. *)
Record Slice : Type := mkSlice {
  allocation_index : Z;
  slice_offset : Z;
  slice_size : Z
}.

(** [se::DeviceMemoryBase]: a resolved memory region. *)
Record DeviceMemoryBase : Type := mkDeviceMemory {
  opaque : ptr;
  size : Z
}.

(** [CollectiveThunk::OpBuffers], read by the thunk through the accessors
    [source_buffer(i)], [source_shape(i)], [destination_buffer(i)] and
    [destination_shape(i)]. *)
Record OpBuffers : Type := mkOpBuffers {
  source_buffers : list Slice;
  source_shapes : list Shape;
  destination_buffers : list Slice;
  destination_shapes : list Shape
}.

(** [CollectiveThunk::OpDeviceMemory]: the resolved operands of one call. *)
Record OpDeviceMemory : Type := mkOpDeviceMemory {
  source : list DeviceMemoryBase;
  destination : list DeviceMemoryBase
}.

(** [CollectiveThunk::OpParams] (declared in collective_thunk.h): the
    configuration of the collective. *)
Record OpParams : Type := mkOpParams {
  op_id : Z;
  has_channel_id : bool;
  use_global_device_ids : bool;
  replica_groups : list (list Z)
}.

(** [Thunk::Info]: identity of the thunk for diagnostics. *)
Record Info : Type := mkInfo {
  op_name : string;
  module_name : string;
  module_id : Z
}.

Inductive Kind : Type :=
| kAllGather | kAllReduce | kAllToAll | kCollectivePermute | kReduceScatter.

(** The thunk object: [AllToAllThunk] adds no field to [CollectiveThunk]. *)
Record AllToAllThunk : Type := mkCollectiveThunk {
  kind : Kind;
  info : Info;
  op_params : OpParams;
  op_buffers : OpBuffers
}.

(** [RendezvousKey] (declared in collective_ops_utils.h): names one
    collective call and its group. *)
Record RendezvousKey : Type := mkRendezvousKey {
  run_id : Z;
  global_devices : list Z;
  key_op_id : Z
}.

(** [absl::Duration], in whole seconds. *)
Definition Duration : Type := Z.

(** The completion handle returned by [Execute]
    ([tsl::AsyncValueRef<ExecuteEvent>]): either the available OK event or
    an error value built from a non-OK status. *)
Inductive ExecuteEvent : Type :=
| OkExecuteEvent
| ErrorEvent (e : StatusError).

(** ** External calls and the execution monad *)

(** What leaves the thunk: a request for a communicator and a call of the
    collective primitive with its five arguments. *)
Inductive Event : Type :=
| EvGetCommunicator (key : RendezvousKey)
| EvAllToAll (key : RendezvousKey) (num_bytes : Z)
             (send_buffers recv_buffers : list ptr) (timeout : Duration).

(** Verbose logging is a setting of the process: whether [VLOG(level)] is
    on is read from the outside world. *)
Class Logging (W : Type) : Type := mkLogging {
  VLOG_IS_ON : nat -> W -> bool
}.

Section Thunk.

(** The state of everything outside the thunk (communicator, transport,
    clocks, memory, logging level). *)
Context {W : Type} {L : Logging W}.

(** The program state: the objects allocated by [new], the external calls
    made so far (oldest first) and the outside world. *)
Record State : Type := mkState {
  heap : list AllToAllThunk;
  trace : list Event;
  world : W
}.

(** The result of running a piece of code: a value and the next state, or
    [Undefined] when the code indexes a vector out of range. *)
Inductive Result (A : Type) : Type :=
| Ret (a : A) (s : State)
| Undefined.
Arguments Ret {A} a s.
Arguments Undefined {A}.

Definition M (A : Type) : Type := State -> Result A.

Definition ret {A} (a : A) : M A := fun s => Ret a s.

Definition bind {A B} (m : M A) (f : A -> M B) : M B :=
  fun s => match m s with
           | Ret a s' => f a s'
           | Undefined => Undefined
           end.

Definition undefined {A} : M A := fun _ => Undefined.

Notation "x <- m ;; k" := (bind m (fun x => k))
  (at level 61, m at next level, right associativity).

(** Appends one external call to the trace. *)
Definition emit (e : Event) : M unit :=
  fun s => Ret tt (mkState (heap s) (trace s ++ [e]) (world s)).

(** Runs an external operation on the outside world. *)
Definition external {A} (f : W -> A * W) : M A :=
  fun s => let (a, w) := f (world s) in
           Ret a (mkState (heap s) (trace s) w).

(** ** The collaborators of the thunk *)

(** [CollectivesCommunicator]: the collective primitive, which answers with
    a status and may change the outside world. *)
Record CollectivesCommunicator : Type := mkCommunicator {
  comm_AllToAll :
    RendezvousKey -> Z -> list ptr -> list ptr -> Duration -> W -> Status * W
}.

(** [comm.AllToAll(key, num_bytes, send, recv, timeout)] as the thunk sees
    it: the call is recorded, then the communicator answers. *)
Definition AllToAll (comm : CollectivesCommunicator) (key : RendezvousKey)
    (num_bytes : Z) (send_buffers recv_buffers : list ptr)
    (timeout : Duration) : M Status :=
  _ <- emit (EvAllToAll key num_bytes send_buffers recv_buffers timeout) ;;
  external (comm_AllToAll comm key num_bytes send_buffers recv_buffers timeout).

(** [Thunk::CollectiveExecuteParams]: the position of this call in the
    collective (the rendezvous key is derived from it) and the collectives
    interface that hands out communicators. *)
Record CollectiveExecuteParams : Type := mkCollectiveExecuteParams {
  params_run_id : Z;
  params_global_devices : list Z;
  GetCommunicator :
    RendezvousKey -> W -> StatusOr CollectivesCommunicator * W
}.

(** [BufferAllocations]: the buffer resolver of one execution. *)
Record BufferAllocations : Type := mkBufferAllocations {
  GetDeviceAddress : Slice -> StatusOr DeviceMemoryBase
}.

(** [Thunk::ExecuteParams]. *)
Record ExecuteParams : Type := mkExecuteParams {
  buffer_allocations : BufferAllocations;
  collective_params : CollectiveExecuteParams
}.

(** ** The collective thunk base *)

(** The accessors [destination_shape(i)] and [source_shape(i)] are declared
    in collective_thunk.h, outside this file; they index the shape vectors
    of the buffers.  [Execute] passes the index without a test of the size,
    so an index out of range has no defined result: [undefined]. *)
Definition destination_shape (thunk : AllToAllThunk) (i : nat) : M Shape :=
  match nth_error (destination_shapes (op_buffers thunk)) i with
  | Some sh => ret sh
  | None => undefined
  end.

Definition source_shape (thunk : AllToAllThunk) (i : nat) : M Shape :=
  match nth_error (source_shapes (op_buffers thunk)) i with
  | Some sh => ret sh
  | None => undefined
  end.

(** The accessors [source_buffer(i)] and [destination_buffer(i)] index the
    slice vectors of the buffers in the same way. *)
Definition source_buffer (thunk : AllToAllThunk) (i : nat) : M Slice :=
  match nth_error (source_buffers (op_buffers thunk)) i with
  | Some sl => ret sl
  | None => undefined
  end.

Definition destination_buffer (thunk : AllToAllThunk) (i : nat) : M Slice :=
  match nth_error (destination_buffers (op_buffers thunk)) i with
  | Some sl => ret sl
  | None => undefined
  end.

(** [VLOG(level) << ...]: the operands of the line are evaluated only
    when that level of logging is on.  The text goes to the log, which is
    not part of the state; what the operands read is. *)
Definition VLOG (level : nat) (operands : M unit) : M unit :=
  fun s => if VLOG_IS_ON level (world s) then operands s else Ret tt s.

(** [for (int i = 0; i < data.source.size(); ++i) VLOG(3) << ...]: each
    line reads [source_shape(i)] and [source_buffer(i)] ([n] counts the
    iterations left). *)
Fixpoint vlog_sources (n i : nat) (thunk : AllToAllThunk) : M unit :=
  match n with
  | O => ret tt
  | S n' =>
      _ <- VLOG 3 (_ <- source_shape thunk i ;;
                   _ <- source_buffer thunk i ;;
                   ret tt) ;;
      vlog_sources n' (S i) thunk
  end.

(** The same loop over the resolved destinations. *)
Fixpoint vlog_destinations (n i : nat) (thunk : AllToAllThunk) : M unit :=
  match n with
  | O => ret tt
  | S n' =>
      _ <- VLOG 3 (_ <- destination_shape thunk i ;;
                   _ <- destination_buffer thunk i ;;
                   ret tt) ;;
      vlog_destinations n' (S i) thunk
  end.

(** Resolves a list of slices in order, stopping at the first failure. *)
Fixpoint resolve_all (allocs : BufferAllocations) (slices : list Slice)
    : StatusOr (list DeviceMemoryBase) :=
  match slices with
  | [] => Value []
  | sl :: rest =>
      match GetDeviceAddress allocs sl with
      | NotOk e => NotOk e
      | Value d =>
          match resolve_all allocs rest with
          | NotOk e => NotOk e
          | Value ds => Value (d :: ds)
          end
      end
  end.

(** Modelled from the spec: [CollectiveThunk::GetOpDeviceMemory] is defined
    in collective_thunk.cc, outside this file.  It resolves a memory region
    for every source and every destination operand through the buffer
    resolver of [params]; a slice that cannot be resolved fails the call. *)
Definition GetOpDeviceMemory (thunk : AllToAllThunk) (params : ExecuteParams)
    : StatusOr OpDeviceMemory :=
  match resolve_all (buffer_allocations params)
                    (source_buffers (op_buffers thunk)) with
  | NotOk e => NotOk e
  | Value src =>
      match resolve_all (buffer_allocations params)
                        (destination_buffers (op_buffers thunk)) with
      | NotOk e => NotOk e
      | Value dst => Value (mkOpDeviceMemory src dst)
      end
  end.

(** Modelled from the spec: the rendezvous key is derived by the collective
    base from the execution context and the parameters of the collective,
    so that the participants of one call compute the same key. *)
Definition GetRendezvousKey (thunk : AllToAllThunk)
    (params : CollectiveExecuteParams) : RendezvousKey :=
  mkRendezvousKey (params_run_id params) (params_global_devices params)
                  (op_id (op_params thunk)).

(** Modelled from the spec: [CollectiveThunk::ExecuteWithCommunicator] is
    defined in collective_thunk.cc, outside this file.  It derives the
    rendezvous key from the parameters, obtains the communicator bound to
    that key (which may fail when the group cannot be formed), runs the
    callback on them and translates its status into the event: success
    completes it, failure makes it a failed event carrying the error. *)
Definition ExecuteWithCommunicator (thunk : AllToAllThunk)
    (params : CollectiveExecuteParams)
    (callback : RendezvousKey -> CollectivesCommunicator -> M Status)
    : M ExecuteEvent :=
  let key := GetRendezvousKey thunk params in
  _ <- emit (EvGetCommunicator key) ;;
  c <- external (GetCommunicator params key) ;;
  match c with
  | NotOk e => ret (ErrorEvent e)
  | Value comm =>
      st <- callback key comm ;;
      match st with
      | ErrorStatus e => ret (ErrorEvent e)
      | OkStatus => ret OkExecuteEvent
      end
  end.

(** Modelled from the spec: [DefaultCollectiveTimeout()] is defined in
    collective_thunk.cc, outside this file.  The spec says that it is one
    fixed default; it takes no argument, and thirty minutes (in seconds)
    stands for its value. *)
Definition DefaultCollectiveTimeout : Duration := 30 * 60.

(** ** AllToAllThunk *)

(** [new AllToAllThunk(...)]: the constructor binds its arguments in the
    [CollectiveThunk] base with kind [kAllToAll]; the object is placed at
    the next free address. *)
Definition new_AllToAllThunk (info : Info) (op_params : OpParams)
    (op_buffers : OpBuffers) : M nat :=
  fun s =>
    Ret (length (heap s))
        (mkState (heap s ++ [mkCollectiveThunk kAllToAll info op_params op_buffers])
                 (trace s) (world s)).

(** [AllToAllThunk::Create]: wraps the new object in a [unique_ptr]. *)
Definition Create (info : Info) (op_params : OpParams) (op_buffers : OpBuffers)
    : M (StatusOr nat) :=
  p <- new_AllToAllThunk info op_params op_buffers ;;
  ret (Value p).

(** The object a pointer refers to. *)
Definition deref (s : State) (p : nat) : option AllToAllThunk :=
  nth_error (heap s) p.

(** The loops that fill [input_buffers] and [output_buffers]:
    [for (int i = 0; i < v.size(); ++i) out.push_back(v[i].opaque());]
    [n] counts the iterations left, [i] is the index (a thunk has a handful
    of operands, so the [int] index does not wrap). *)
Fixpoint push_back_opaque (n : nat) (i : nat) (v : list DeviceMemoryBase)
    (out : list ptr) : list ptr :=
  match n with
  | O => out
  | S n' =>
      match nth_error v i with
      | Some d => push_back_opaque n' (S i) v (out ++ [opaque d])
      | None => out
      end
  end.

Definition collect_opaque (v : list DeviceMemoryBase) : list ptr :=
  push_back_opaque (length v) 0 v [].

(** The callback that [Execute] hands to [ExecuteWithCommunicator]. *)
Definition AllToAllCallback (thunk : AllToAllThunk) (data : OpDeviceMemory)
    (key : RendezvousKey) (comm : CollectivesCommunicator) : M Status :=
  shape <- destination_shape thunk 0 ;;
  let input_buffers := collect_opaque (source data) in
  let output_buffers := collect_opaque (destination data) in
  st <- AllToAll comm key (ByteSizeOf shape) input_buffers output_buffers
                 DefaultCollectiveTimeout ;;
  match st with
  | ErrorStatus e => ret (ErrorStatus e)
  | OkStatus => ret OkStatus
  end.

(** [AllToAllThunk::Execute].  The profiler annotation of the first line
    is left out.  The first [VLOG(3)] line reads the two sizes only; the
    two logging loops read a shape and a slice per resolved operand. *)
Definition Execute (thunk : AllToAllThunk) (params : ExecuteParams)
    : M ExecuteEvent :=
  match GetOpDeviceMemory thunk params with
  | NotOk e => ret (ErrorEvent e)
  | Value data =>
      _ <- VLOG 3 (ret tt) ;;
      _ <- vlog_sources (length (source data)) 0 thunk ;;
      _ <- vlog_destinations (length (destination data)) 0 thunk ;;
      ExecuteWithCommunicator thunk (collective_params params)
                              (AllToAllCallback thunk data)
  end.


(** ** Reading a run *)

(** The external calls made between state [s] and a later state [s']. *)
Definition new_events (s s' : State) : list Event :=
  skipn (length (trace s)) (trace s').

Definition is_AllToAll (e : Event) : bool :=
  match e with
  | EvAllToAll _ _ _ _ _ => true
  | EvGetCommunicator _ => false
  end.

(** How many times the collective primitive was invoked in a trace. *)
Definition count_AllToAll (tr : list Event) : nat :=
  length (filter is_AllToAll tr).

(** The event that a status of the callback turns into. *)
Definition event_of_status (st : Status) : ExecuteEvent :=
  match st with
  | OkStatus => OkExecuteEvent
  | ErrorStatus e => ErrorEvent e
  end.


(** Whether every read of the logging loops is in range: each shape and
    slice vector is at least as long as the resolved list it is logged
    with. *)
Definition vlog_in_range (thunk : AllToAllThunk) (data : OpDeviceMemory)
    : bool :=
  (length (source data) <=? length (source_shapes (op_buffers thunk)))%nat
  && (length (source data) <=? length (source_buffers (op_buffers thunk)))%nat
  && (length (destination data)
      <=? length (destination_shapes (op_buffers thunk)))%nat
  && (length (destination data)
      <=? length (destination_buffers (op_buffers thunk)))%nat.

(** Whether the logging lines of [Execute] have a defined result in the
    world [w]: logging at level 3 is off, or every read is in range. *)
Definition vlog_defined (thunk : AllToAllThunk) (data : OpDeviceMemory)
    (w : W) : bool :=
  negb (VLOG_IS_ON 3 w) || vlog_in_range thunk data.

(** The five ways a call of [Execute] from state [s] can go. *)
Inductive ExecuteOutcome (thunk : AllToAllThunk) (params : ExecuteParams)
    (s : State) : Result ExecuteEvent -> Prop :=
| ResolutionFailed e :
    GetOpDeviceMemory thunk params = NotOk e ->
    ExecuteOutcome thunk params s (Ret (ErrorEvent e) s)
| GroupFailed data e w1 :
    GetOpDeviceMemory thunk params = Value data ->
    vlog_defined thunk data (world s) = true ->
    GetCommunicator (collective_params params)
      (GetRendezvousKey thunk (collective_params params)) (world s)
      = (NotOk e, w1) ->
    ExecuteOutcome thunk params s
      (Ret (ErrorEvent e)
           (mkState (heap s)
              (trace s ++ [EvGetCommunicator
                             (GetRendezvousKey thunk (collective_params params))])
              w1))
| ShapeOutOfRange data comm w1 :
    GetOpDeviceMemory thunk params = Value data ->
    vlog_defined thunk data (world s) = true ->
    GetCommunicator (collective_params params)
      (GetRendezvousKey thunk (collective_params params)) (world s)
      = (Value comm, w1) ->
    nth_error (destination_shapes (op_buffers thunk)) 0 = None ->
    ExecuteOutcome thunk params s Undefined
| Communicated data comm w1 shape st w2 :
    GetOpDeviceMemory thunk params = Value data ->
    vlog_defined thunk data (world s) = true ->
    GetCommunicator (collective_params params)
      (GetRendezvousKey thunk (collective_params params)) (world s)
      = (Value comm, w1) ->
    nth_error (destination_shapes (op_buffers thunk)) 0 = Some shape ->
    comm_AllToAll comm (GetRendezvousKey thunk (collective_params params))
      (ByteSizeOf shape) (map opaque (source data))
      (map opaque (destination data)) DefaultCollectiveTimeout w1 = (st, w2) ->
    ExecuteOutcome thunk params s
      (Ret (event_of_status st)
           (mkState (heap s)
              (trace s ++
                 [EvGetCommunicator
                    (GetRendezvousKey thunk (collective_params params));
                  EvAllToAll
                    (GetRendezvousKey thunk (collective_params params))
                    (ByteSizeOf shape) (map opaque (source data))
                    (map opaque (destination data)) DefaultCollectiveTimeout])
              w2))
| LogOutOfRange data :
    GetOpDeviceMemory thunk params = Value data ->
    vlog_defined thunk data (world s) = false ->
    ExecuteOutcome thunk params s Undefined.

(** ** The exchange across the group *)

(** Memory as bytes at addresses. *)
Definition Memory : Type := ptr -> Byte.byte.

(** The [n] bytes from address [p] on. *)
Definition read (m : Memory) (p : ptr) (n : Z) : list Byte.byte :=
  map (fun k => m (p + Z.of_nat k)) (seq 0 (Z.to_nat n)).

(** Memory after storing the bytes [bs] from address [p] on. *)
Definition write (m : Memory) (p : ptr) (bs : list Byte.byte) : Memory :=
  fun a =>
    if (p <=? a) && (a <? p + Z.of_nat (length bs))
    then nth (Z.to_nat (a - p)) bs (m a)
    else m a.

Definition apply_writes (ws : list (ptr * list Byte.byte)) (m : Memory)
    : Memory :=
  fold_left (fun acc w => write acc (fst w) (snd w)) ws m.

(** The contents of a resolved region. *)
Definition contents (m : Memory) (d : DeviceMemoryBase) : list Byte.byte :=
  read m (opaque d) (size d).

(** The arguments of one call of the primitive. *)
Record AllToAllCall : Type := mkCall {
  call_key : RendezvousKey;
  call_bytes : Z;
  call_send : list ptr;
  call_recv : list ptr
}.

(** The first call of the primitive in a trace. *)
Fixpoint first_call (tr : list Event) : option AllToAllCall :=
  match tr with
  | [] => None
  | EvAllToAll key n ins outs _ :: _ => Some (mkCall key n ins outs)
  | EvGetCommunicator _ :: rest => first_call rest
  end.

(** One participant of the group: its thunk, its execution parameters and
    the state its [Execute] starts from. *)
Record Participant : Type := mkParticipant {
  p_thunk : AllToAllThunk;
  p_params : ExecuteParams;
  p_state : State
}.

(** The call that a participant contributes when its [Execute] succeeds. *)
Definition participant_call (x : Participant) : option AllToAllCall :=
  match Execute (p_thunk x) (p_params x) (p_state x) with
  | Ret OkExecuteEvent s' => first_call (new_events (p_state x) s')
  | Ret (ErrorEvent _) _ => None
  | Undefined => None
  end.

Fixpoint all_some {A} (l : list (option A)) : option (list A) :=
  match l with
  | [] => Some []
  | None :: _ => None
  | Some a :: rest =>
      match all_some rest with
      | Some r => Some (a :: r)
      | None => None
      end
  end.

(** What participant [P] receives from participant [i]: slot [i] of the
    destination list of [P] gets the bytes of slot [P] of the source list
    of [i], as they were in [m0]. *)
Definition delivery (calls : list AllToAllCall) (m0 : Memory) (P i : nat)
    : list (ptr * list Byte.byte) :=
  match nth_error calls P, nth_error calls i with
  | Some cP, Some ci =>
      match nth_error (call_recv cP) i, nth_error (call_send ci) P with
      | Some dst, Some src => [(dst, read m0 src (call_bytes cP))]
      | _, _ => []
      end
  | _, _ => []
  end.

Definition deliveries (calls : list AllToAllCall) (m0 : Memory)
    : list (ptr * list Byte.byte) :=
  flat_map (fun P => flat_map (delivery calls m0 P) (seq 0 (length calls)))
           (seq 0 (length calls)).

(** Modelled from the spec: the exchange is done by the communicators of
    the group, whose code is outside this file.  Once every participant has
    called the primitive, index i of the source list of participant P is
    delivered to index P of the destination list of participant i (a full
    transpose of the contributions); each delivery moves the byte size of
    the call. *)
Definition exchange (calls : list AllToAllCall) (m0 : Memory) : Memory :=
  apply_writes (deliveries calls m0) m0.

(** All participants run [Execute]; when all succeed, the exchange takes
    place on the calls they made (participant [P] is rank [P]). *)
Definition GroupExecute (ps : list Participant) (m0 : Memory)
    : option Memory :=
  match all_some (map participant_call ps) with
  | Some calls => Some (exchange calls m0)
  | None => None
  end.

(** Two regions of [n] bytes that do not overlap. *)
Definition apart (n : Z) (a b : ptr) : Prop :=
  a + n <= b \/ b + n <= a.

(** Participant [x] resolves its operands to [d], and its operands are
    uniform: destination shape 0 has byte size [n] and every resolved
    region is [n] bytes long. *)
Definition resolves_uniformly (n : Z) (x : Participant) (d : OpDeviceMemory)
    : Prop :=
  GetOpDeviceMemory (p_thunk x) (p_params x) = Value d /\
  (exists sh,
      nth_error (destination_shapes (op_buffers (p_thunk x))) 0 = Some sh /\
      ByteSizeOf sh = n) /\
  Forall (fun b => size b = n) (source d) /\
  Forall (fun b => size b = n) (destination d).

(** The [Execute] of participant [x] returns the OK event. *)
Definition succeeds (x : Participant) : Prop :=
  exists s', Execute (p_thunk x) (p_params x) (p_state x) = Ret OkExecuteEvent s'.

(** No two destination regions of the group overlap. *)
Definition destinations_apart (n : Z) (datas : list OpDeviceMemory) : Prop :=
  forall P i Q j dP dQ a b,
    nth_error datas P = Some dP ->
    nth_error datas Q = Some dQ ->
    nth_error (destination dP) i = Some a ->
    nth_error (destination dQ) j = Some b ->
    (P, i) <> (Q, j) ->
    apart n (opaque a) (opaque b).

End Thunk.

Arguments Participant W : clear implicits.
Arguments State W : clear implicits.
Arguments Result W A : clear implicits.
Arguments M W A : clear implicits.
Arguments CollectivesCommunicator W : clear implicits.
Arguments CollectiveExecuteParams W : clear implicits.
Arguments ExecuteParams W : clear implicits.
Arguments Ret {W A} a s.
Arguments Undefined {W A}.

(** ** Sample inputs *)

Definition f32 (dims : list Z) : Shape := mkShape F32 dims.

Definition sample_info : Info := mkInfo "all-to-all" "module" 1.

Definition sample_op_params : OpParams := mkOpParams 3 false false [[0; 1]].

(** Allocation [k] as a slice of [bytes] bytes. *)
Definition slice_of (k bytes : Z) : Slice := mkSlice k 0 bytes.

(** Two sources and two destinations of shape f32[2] (8 bytes each). *)
Definition sample_buffers : OpBuffers :=
  mkOpBuffers [slice_of 0 8; slice_of 1 8] [f32 [2]; f32 [2]]
              [slice_of 2 8; slice_of 3 8] [f32 [2]; f32 [2]].

(** As above, but destination 1 has shape f32[4] (16 bytes). *)
Definition uneven_buffers : OpBuffers :=
  mkOpBuffers [slice_of 0 8; slice_of 1 8] [f32 [2]; f32 [2]]
              [slice_of 2 8; slice_of 3 16] [f32 [2]; f32 [4]].

(** As [sample_buffers], but the second source and destination have other
    shapes, of the same byte size or not. *)
Definition other_buffers : OpBuffers :=
  mkOpBuffers [slice_of 0 8; slice_of 1 8] [mkShape S64 [1]; mkShape U8 [3]]
              [slice_of 2 8; slice_of 3 8] [f32 [2]; mkShape F64 [5]].

(** No source and no destination. *)
Definition no_destination_buffers : OpBuffers :=
  mkOpBuffers [] [] [] [].

Definition thunk_of (b : OpBuffers) : AllToAllThunk :=
  mkCollectiveThunk kAllToAll sample_info sample_op_params b.

(** A resolver that places allocation [k] at address [base + 16 * k]. *)
Definition allocations_at (base : Z) : BufferAllocations :=
  mkBufferAllocations
    (fun sl => Value (mkDeviceMemory
                        (base + 16 * allocation_index sl + slice_offset sl)
                        (slice_size sl))).

Definition unassigned : StatusError :=
  mkError kInternal "slice is not assigned".

(** A resolver in which allocation 1 is not assigned. *)
Definition allocations_without_1 : BufferAllocations :=
  mkBufferAllocations
    (fun sl => if allocation_index sl =? 1
               then NotOk unassigned
               else Value (mkDeviceMemory (16 * allocation_index sl)
                                          (slice_size sl))).

(** Logging off. *)
#[export] Instance quiet : Logging unit := mkLogging unit (fun _ _ => false).

(** Logging on up to level 3. *)
Definition verbose : Logging unit :=
  mkLogging unit (fun level _ => (level <=? 3)%nat).

(** No source, no destination slice, and yet one destination shape. *)
Definition shape_only_buffers : OpBuffers :=
  mkOpBuffers [] [] [] [f32 [2]].

(** A communicator that gives the same answer to every call. *)
Definition answering (st : Status) : CollectivesCommunicator unit :=
  mkCommunicator (fun _ _ _ _ _ w => (st, w)).

Definition timed_out : StatusError :=
  mkError kDeadlineExceeded "all-to-all timed out".

Definition collectives (st : Status) : CollectiveExecuteParams unit :=
  mkCollectiveExecuteParams 7 [0; 1] (fun _ w => (Value (answering st), w)).

Definition sample_params (base : Z) (st : Status) : ExecuteParams unit :=
  mkExecuteParams (allocations_at base) (collectives st).

Definition empty_state : State unit := mkState [] [] tt.

Definition sample_key : RendezvousKey := mkRendezvousKey 7 [0; 1] 3.

(** The state after a run from [empty_state] that called the primitive
    with 8 bytes on the operands resolved at [base]. *)
Definition state_after_call (base : Z) : State unit :=
  mkState []
    [EvGetCommunicator sample_key;
     EvAllToAll sample_key 8 [base; base + 16] [base + 32; base + 48]
                DefaultCollectiveTimeout]
    tt.

(** Two participants, with operands at 4096 and at 8256. *)
Definition sample_group : list (Participant unit) :=
  [mkParticipant (thunk_of sample_buffers) (sample_params 4096 OkStatus)
                 empty_state;
   mkParticipant (thunk_of sample_buffers) (sample_params 8256 OkStatus)
                 empty_state].

Definition sample_resolved (base : Z) : OpDeviceMemory :=
  mkOpDeviceMemory
    [mkDeviceMemory base 8; mkDeviceMemory (base + 16) 8]
    [mkDeviceMemory (base + 32) 8; mkDeviceMemory (base + 48) 8].

(** A memory whose byte at address [a] is [a mod 256]. *)
Definition sample_memory : Memory :=
  fun a => match Byte.of_N (Z.to_N (a mod 256)) with
           | Some b => b
           | None => Byte.x00
           end.

(** Destination 0 of shape s64[1]: another element type and dimension,
    the same 8 bytes. *)
Definition s64_buffers : OpBuffers :=
  mkOpBuffers [slice_of 0 8; slice_of 1 8] [mkShape U8 [8]; mkShape PRED [1]]
              [slice_of 2 8; slice_of 3 8] [mkShape S64 [1]; mkShape F64 [5]].

(** A thunk with another kind and info on [s64_buffers]. *)
Definition other_thunk : AllToAllThunk :=
  mkCollectiveThunk kAllReduce (mkInfo "other" "elsewhere" 9)
                    sample_op_params s64_buffers.

(** The operands of [sample_resolved] with other region sizes. *)
Definition resized_resolved (base : Z) : OpDeviceMemory :=
  mkOpDeviceMemory
    [mkDeviceMemory base 1; mkDeviceMemory (base + 16) 0]
    [mkDeviceMemory (base + 32) 4096; mkDeviceMemory (base + 48) 3].

Definition group_unavailable : StatusError :=
  mkError kUnavailable "participant not registered".

(** A collectives interface that cannot form the group. *)
Definition no_collectives : CollectiveExecuteParams unit :=
  mkCollectiveExecuteParams 7 [0; 1] (fun _ w => (NotOk group_unavailable, w)).

(** The state after a run from [empty_state] that only asked for the
    communicator. *)
Definition state_after_request : State unit :=
  mkState [] [EvGetCommunicator sample_key] tt.

(** The state after one more run, started from [state_after_call base]. *)
Definition state_after_two_calls (base : Z) : State unit :=
  mkState []
    (trace (state_after_call base) ++ trace (state_after_call base))
    tt.

(** Two sources and two destinations, but one shape on each side. *)
Definition short_shapes_buffers : OpBuffers :=
  mkOpBuffers [slice_of 0 8; slice_of 1 8] [f32 [2]]
              [slice_of 2 8; slice_of 3 8] [f32 [2]].


(** ** Properties *)

Section Properties.

Context {W : Type} {L : Logging W}.

Implicit Types (s : State W) (params : ExecuteParams W) (thunk : AllToAllThunk).

(** The filling loop keeps what is already in [out] and appends the
    addresses of [v] from index [i] on. *)
Lemma push_back_opaque_skipn (v : list DeviceMemoryBase) :
  forall n i out,
    (i + n = length v)%nat ->
    push_back_opaque n i v out = out ++ map opaque (skipn i v).
Proof.
  induction n as [|n IH]; intros i out Hlen; simpl.
  - rewrite skipn_all2 by lia. simpl. now rewrite app_nil_r.
  - destruct (nth_error v i) as [d|] eqn:Hd.
    + rewrite IH by lia.
      rewrite <- app_assoc. f_equal.
      clear IH. revert i Hlen Hd.
      induction v as [|x v IHv]; intros [|i] Hlen Hd; simpl in *;
        try discriminate.
      * now inversion Hd.
      * apply IHv with (i := i); [lia | assumption].
    + apply nth_error_None in Hd. lia.
Qed.

Lemma collect_opaque_map (v : list DeviceMemoryBase) :
  collect_opaque v = map opaque v.
Proof.
  unfold collect_opaque. now rewrite push_back_opaque_skipn by lia.
Qed.

Lemma new_events_app s h tr w :
  new_events s (mkState h (trace s ++ tr) w) = tr.
Proof.
  unfold new_events; simpl.
  rewrite skipn_app, skipn_all, Nat.sub_diag. reflexivity.
Qed.

Lemma new_events_refl s : new_events s s = [].
Proof. unfold new_events. apply skipn_all. Qed.

(** The callback on a thunk with a destination shape: one call of the
    primitive, with the byte size of destination shape 0, the addresses of
    the resolved regions and the default timeout; its status is the
    status of that call. *)
Lemma AllToAllCallback_run thunk data key (comm : CollectivesCommunicator W)
    shape s :
  nth_error (destination_shapes (op_buffers thunk)) 0 = Some shape ->
  AllToAllCallback thunk data key comm s
  = let (st, w2) :=
        comm_AllToAll comm key (ByteSizeOf shape) (map opaque (source data))
          (map opaque (destination data)) DefaultCollectiveTimeout (world s) in
    Ret st
        (mkState (heap s)
           (trace s ++ [EvAllToAll key (ByteSizeOf shape)
                          (map opaque (source data))
                          (map opaque (destination data))
                          DefaultCollectiveTimeout])
           w2).
Proof.
  intros Hshape.
  unfold AllToAllCallback, destination_shape, bind. rewrite Hshape.
  unfold ret, AllToAll, bind, emit, external; simpl.
  rewrite !collect_opaque_map.
  destruct (comm_AllToAll comm _ _ _ _ _ (world s)) as [[|e] w2]; reflexivity.
Qed.

(** *** The logging lines *)

Lemma vlog_sources_off thunk s :
  VLOG_IS_ON 3 (world s) = false ->
  forall n i, vlog_sources n i thunk s = Ret tt s.
Proof.
  intros Hoff. induction n as [|n IH]; intros i; simpl; [reflexivity|].
  unfold bind, VLOG. rewrite Hoff. apply IH.
Qed.

Lemma vlog_destinations_off thunk s :
  VLOG_IS_ON 3 (world s) = false ->
  forall n i, vlog_destinations n i thunk s = Ret tt s.
Proof.
  intros Hoff. induction n as [|n IH]; intros i; simpl; [reflexivity|].
  unfold bind, VLOG. rewrite Hoff. apply IH.
Qed.

(** With logging on, the loop over the sources is defined exactly when
    the shape and slice vectors reach up to the last index it reads. *)
Lemma vlog_sources_on thunk s :
  VLOG_IS_ON 3 (world s) = true ->
  forall n i,
    (i <= length (source_shapes (op_buffers thunk)))%nat ->
    (i <= length (source_buffers (op_buffers thunk)))%nat ->
    vlog_sources n i thunk s
    = if ((i + n <=? length (source_shapes (op_buffers thunk)))%nat
          && (i + n <=? length (source_buffers (op_buffers thunk)))%nat)%bool
      then Ret tt s else Undefined.
Proof.
  intros Hon. induction n as [|n IH]; intros i Hsh Hbuf; simpl.
  - rewrite Nat.add_0_r.
    destruct (Nat.leb_spec i (length (source_shapes (op_buffers thunk))));
      [|lia].
    destruct (Nat.leb_spec i (length (source_buffers (op_buffers thunk))));
      [|lia].
    reflexivity.
  - unfold bind at 1. unfold VLOG. rewrite Hon.
    unfold bind, source_shape, source_buffer.
    destruct (nth_error (source_shapes (op_buffers thunk)) i) as [sh|] eqn:Hs.
    + assert (i < length (source_shapes (op_buffers thunk)))%nat
        by (apply nth_error_Some; congruence).
      unfold ret at 1.
      destruct (nth_error (source_buffers (op_buffers thunk)) i)
        as [sl|] eqn:Hb.
      * assert (i < length (source_buffers (op_buffers thunk)))%nat
          by (apply nth_error_Some; congruence).
        unfold ret at 1. unfold ret at 1.
        rewrite IH by lia.
        now replace (S i + n)%nat with (i + S n)%nat by lia.
      * apply nth_error_None in Hb. unfold undefined.
        destruct (Nat.leb_spec (i + S n)
                    (length (source_buffers (op_buffers thunk)))); [lia|].
        now rewrite andb_false_r.
    + apply nth_error_None in Hs. unfold undefined.
      destruct (Nat.leb_spec (i + S n)
                  (length (source_shapes (op_buffers thunk)))); [lia|].
      reflexivity.
Qed.

Lemma vlog_destinations_on thunk s :
  VLOG_IS_ON 3 (world s) = true ->
  forall n i,
    (i <= length (destination_shapes (op_buffers thunk)))%nat ->
    (i <= length (destination_buffers (op_buffers thunk)))%nat ->
    vlog_destinations n i thunk s
    = if ((i + n <=? length (destination_shapes (op_buffers thunk)))%nat
          && (i + n <=? length (destination_buffers (op_buffers thunk)))%nat)%bool
      then Ret tt s else Undefined.
Proof.
  intros Hon. induction n as [|n IH]; intros i Hsh Hbuf; simpl.
  - rewrite Nat.add_0_r.
    destruct (Nat.leb_spec i (length (destination_shapes (op_buffers thunk))));
      [|lia].
    destruct (Nat.leb_spec i (length (destination_buffers (op_buffers thunk))));
      [|lia].
    reflexivity.
  - unfold bind at 1. unfold VLOG. rewrite Hon.
    unfold bind, destination_shape, destination_buffer.
    destruct (nth_error (destination_shapes (op_buffers thunk)) i)
      as [sh|] eqn:Hs.
    + assert (i < length (destination_shapes (op_buffers thunk)))%nat
        by (apply nth_error_Some; congruence).
      unfold ret at 1.
      destruct (nth_error (destination_buffers (op_buffers thunk)) i)
        as [sl|] eqn:Hb.
      * assert (i < length (destination_buffers (op_buffers thunk)))%nat
          by (apply nth_error_Some; congruence).
        unfold ret at 1. unfold ret at 1.
        rewrite IH by lia.
        now replace (S i + n)%nat with (i + S n)%nat by lia.
      * apply nth_error_None in Hb. unfold undefined.
        destruct (Nat.leb_spec (i + S n)
                    (length (destination_buffers (op_buffers thunk)))); [lia|].
        now rewrite andb_false_r.
    + apply nth_error_None in Hs. unfold undefined.
      destruct (Nat.leb_spec (i + S n)
                  (length (destination_shapes (op_buffers thunk)))); [lia|].
      reflexivity.
Qed.

(** The logging lines of [Execute] change nothing; they are defined
    exactly when [vlog_defined] says so. *)
Lemma Execute_vlog {A} thunk data (k : M W A) s :
  bind (VLOG 3 (ret tt))
    (fun _ => bind (vlog_sources (length (source data)) 0 thunk)
    (fun _ => bind (vlog_destinations (length (destination data)) 0 thunk)
    (fun _ => k))) s
  = if vlog_defined thunk data (world s) then k s else Undefined.
Proof.
  unfold vlog_defined, vlog_in_range.
  destruct (VLOG_IS_ON 3 (world s)) eqn:Hlog; simpl.
  - unfold bind at 1. unfold VLOG at 1. rewrite Hlog. unfold ret at 1.
    unfold bind at 1. rewrite vlog_sources_on by (assumption || lia). simpl.
    destruct ((length (source data)
               <=? length (source_shapes (op_buffers thunk)))%nat
              && (length (source data)
                  <=? length (source_buffers (op_buffers thunk)))%nat)%bool;
      [|reflexivity].
    unfold bind at 1. rewrite vlog_destinations_on by (assumption || lia).
    simpl.
    destruct ((length (destination data)
               <=? length (destination_shapes (op_buffers thunk)))%nat
              && (length (destination data)
                  <=? length (destination_buffers (op_buffers thunk)))%nat)%bool;
      reflexivity.
  - unfold bind at 1. unfold VLOG at 1. rewrite Hlog.
    unfold bind at 1. rewrite vlog_sources_off by assumption.
    unfold bind at 1. now rewrite vlog_destinations_off by assumption.
Qed.

(** Every call of [Execute] goes one of the five ways. *)
Lemma Execute_outcome thunk params s :
  ExecuteOutcome thunk params s (Execute thunk params s).
Proof.
  unfold Execute.
  destruct (GetOpDeviceMemory thunk params) as [data|e] eqn:Hdata.
  - rewrite Execute_vlog.
    destruct (vlog_defined thunk data (world s)) eqn:Hlog;
      [|now apply (LogOutOfRange thunk params s data)].
    unfold ExecuteWithCommunicator, bind, emit, external; simpl.
    destruct (GetCommunicator _ _ (world s)) as [[comm|e] w1] eqn:Hcomm.
    { destruct (nth_error (destination_shapes (op_buffers thunk)) 0)
        as [shape|] eqn:Hshape.
      + rewrite (AllToAllCallback_run _ _ _ _ shape) by assumption. simpl.
        destruct (comm_AllToAll comm _ _ _ _ _ w1) as [st w2] eqn:Hcall.
        rewrite <- app_assoc; simpl.
        destruct st as [|e].
        * now apply (Communicated thunk params s data comm w1 shape OkStatus w2).
        * now apply (Communicated thunk params s data comm w1 shape
                       (ErrorStatus e) w2).
      + unfold AllToAllCallback, destination_shape, bind. rewrite Hshape.
        unfold undefined. eapply ShapeOutOfRange; eassumption. }
    unfold ret. eapply GroupFailed; eassumption.
  - unfold ret. now apply ResolutionFailed.
Qed.

Ltac execute_cases H :=
  match type of H with
  | Execute ?t ?p ?s = _ =>
      let O := fresh "O" in
      pose proof (Execute_outcome t p s) as O;
      rewrite H in O; inversion O; subst; clear O
  end.

(** A recorded call of the primitive pins down the whole run: resolution
    and the acquisition of the communicator succeeded, destination shape 0
    exists, and the five arguments and the event are those of the
    [Communicated] case. *)
Lemma Execute_call_inv thunk params s ev s' key n ins outs t :
  Execute thunk params s = Ret ev s' ->
  In (EvAllToAll key n ins outs t) (new_events s s') ->
  exists data comm w1 shape st,
    GetOpDeviceMemory thunk params = Value data /\
    GetCommunicator (collective_params params)
      (GetRendezvousKey thunk (collective_params params)) (world s)
      = (Value comm, w1) /\
    nth_error (destination_shapes (op_buffers thunk)) 0 = Some shape /\
    comm_AllToAll comm key n ins outs t w1 = (st, world s') /\
    ev = event_of_status st /\
    key = GetRendezvousKey thunk (collective_params params) /\
    n = ByteSizeOf shape /\
    ins = map opaque (source data) /\
    outs = map opaque (destination data) /\
    t = DefaultCollectiveTimeout /\
    new_events s s' = [EvGetCommunicator key; EvAllToAll key n ins outs t].
Proof.
  intros Hrun Hin. execute_cases Hrun.
  - rewrite new_events_refl in Hin. contradiction.
  - rewrite new_events_app in Hin. simpl in Hin.
    destruct Hin as [Hin|[]]. discriminate.
  - rewrite new_events_app in Hin. simpl in Hin.
    destruct Hin as [Hin|[Hin|[]]]; [discriminate|].
    inversion Hin; subst.
    exists data, comm, w1, shape, st. rewrite new_events_app. simpl.
    repeat split; assumption.
Qed.

(** Without a recorded call, the run made at most the request for a
    communicator. *)
Lemma Execute_count thunk params s ev s' :
  Execute thunk params s = Ret ev s' ->
  (count_AllToAll (new_events s s') <= 1)%nat.
Proof.
  intros Hrun. execute_cases Hrun.
  - rewrite new_events_refl. unfold count_AllToAll; simpl. lia.
  - rewrite new_events_app. unfold count_AllToAll; simpl. lia.
  - rewrite new_events_app. unfold count_AllToAll; simpl. lia.
Qed.

(** [Execute] is defined as soon as the thunk has a destination shape and
    the logging lines are defined. *)
Lemma Execute_defined thunk params s :
  destination_shapes (op_buffers thunk) <> [] ->
  (forall data, GetOpDeviceMemory thunk params = Value data ->
                vlog_defined thunk data (world s) = true) ->
  exists ev s', Execute thunk params s = Ret ev s'.
Proof.
  intros Hne Hlog. pose proof (Execute_outcome thunk params s) as O.
  inversion O; eauto.
  - destruct (destination_shapes (op_buffers thunk)); [congruence|discriminate].
  - match goal with H : GetOpDeviceMemory _ _ = Value _ |- _ =>
      apply Hlog in H; congruence end.
Qed.


(** The resolved destinations are as many as the destination slices; in
    particular there are none when the buffers have none. *)
Lemma GetOpDeviceMemory_no_destination thunk params data :
  destination_buffers (op_buffers thunk) = [] ->
  GetOpDeviceMemory thunk params = Value data ->
  destination data = [].
Proof.
  intros Hnil Hdata. unfold GetOpDeviceMemory in Hdata. rewrite Hnil in Hdata.
  destruct (resolve_all _ (source_buffers _)) as [src|e]; [|discriminate].
  simpl in Hdata. inversion Hdata. reflexivity.
Qed.

Lemma Create_run (info : Info) (op_params : OpParams) (op_buffers : OpBuffers) s :
  Create info op_params op_buffers s
  = Ret (Value (length (heap s)))
        (mkState (heap s ++ [mkCollectiveThunk kAllToAll info op_params op_buffers])
                 (trace s) (world s)).
Proof. reflexivity. Qed.

Lemma deref_Create (t : AllToAllThunk) s :
  deref (mkState (heap s ++ [t]) (trace s) (world s)) (length (heap s)) = Some t.
Proof.
  unfold deref; simpl.
  rewrite nth_error_app2, Nat.sub_diag by lia. reflexivity.
Qed.

(** C1. When the resolution of the operand buffers fails, [Execute]
    returns at once the failed event that carries the resolution error:
    the state is the one it started from, so no external call was made,
    neither the request for a communicator nor [AllToAll]. *)
Theorem Execute_resolution_failure thunk params s e :
  GetOpDeviceMemory thunk params = NotOk e ->
  exists s',
    Execute thunk params s = Ret (ErrorEvent e) s' /\
    s' = s /\
    new_events s s' = [] /\
    count_AllToAll (new_events s s') = 0%nat.
Proof.
  intros Hfail. exists s. unfold Execute. rewrite Hfail.
  rewrite new_events_refl. repeat split.
Qed.

(** C4. A call of [Execute] invokes the primitive at most once, and when
    the communicator answers the recorded call with an error, the returned
    event is the failed event carrying exactly that error (whatever its
    code: timeout, transport or group error); an OK answer gives the OK
    event. *)
Theorem Execute_once_and_propagates thunk params s ev s' :
  Execute thunk params s = Ret ev s' ->
  (count_AllToAll (new_events s s') <= 1)%nat /\
  (forall comm w1 key n ins outs t st w2,
      GetCommunicator (collective_params params)
        (GetRendezvousKey thunk (collective_params params)) (world s)
        = (Value comm, w1) ->
      In (EvAllToAll key n ins outs t) (new_events s s') ->
      comm_AllToAll comm key n ins outs t w1 = (st, w2) ->
      ev = event_of_status st /\ world s' = w2) /\
  (forall e w1,
      GetCommunicator (collective_params params)
        (GetRendezvousKey thunk (collective_params params)) (world s)
        = (NotOk e, w1) ->
      forall data, GetOpDeviceMemory thunk params = Value data ->
      ev = ErrorEvent e /\ count_AllToAll (new_events s s') = 0%nat).
Proof.
  intros Hrun. split; [|split].
  - eapply Execute_count; eassumption.
  - intros comm w1 key n ins outs t st w2 Hcomm Hin Hcall.
    destruct (Execute_call_inv _ _ _ _ _ _ _ _ _ _ Hrun Hin)
      as (data & comm' & w1' & shape & st' & _ & Hcomm' & _ & Hcall' & Hev & _).
    rewrite Hcomm in Hcomm'. inversion Hcomm'; subst comm' w1'.
    rewrite Hcall in Hcall'. inversion Hcall'; subst. now split.
  - intros e w1 Hcomm data Hdata. execute_cases Hrun; try congruence.
    rewrite new_events_app. split; [congruence|reflexivity].
Qed.

(** C5. Every call of the primitive made by [Execute] carries the default
    collective timeout, whatever the thunk and the execution parameters. *)
Theorem Execute_timeout thunk params s ev s' key n ins outs t :
  Execute thunk params s = Ret ev s' ->
  In (EvAllToAll key n ins outs t) (new_events s s') ->
  t = DefaultCollectiveTimeout.
Proof.
  intros Hrun Hin.
  destruct (Execute_call_inv _ _ _ _ _ _ _ _ _ _ Hrun Hin)
    as (data & comm & w1 & shape & st & H). tauto.
Qed.

(** C6. [Create] succeeds for every argument triple: it returns a pointer
    to a new thunk of kind [kAllToAll] holding exactly the given info,
    parameters and buffers; it makes no external call and leaves the
    outside world and the objects already allocated as they were. *)
Theorem Create_succeeds (info : Info) (op_params : OpParams)
    (op_buffers : OpBuffers) s :
  exists p s',
    Create info op_params op_buffers s = Ret (Value p) s' /\
    deref s' p = Some (mkCollectiveThunk kAllToAll info op_params op_buffers) /\
    new_events s s' = [] /\
    world s' = world s /\
    (forall q, (q < length (heap s))%nat -> deref s' q = deref s q).
Proof.
  exists (length (heap s)).
  eexists. split; [apply Create_run|]. split; [apply deref_Create|].
  simpl. repeat split.
  - unfold new_events; simpl. apply skipn_all.
  - intros q Hq. unfold deref; simpl. now rewrite nth_error_app1.
Qed.

(** C2 (amended). For buffers without destination slices, [Create] still
    succeeds, and [Execute] of the thunk never checks the count.  A failed
    resolution is returned as a failed event with no external call.  After
    a successful resolution there is no resolved destination; the logging
    lines, when logging is on, read one shape per resolved operand and are
    undefined on a vector that is too short.  Past them, a failed
    acquisition of the communicator is returned as a failed event without
    a call of the primitive; with a communicator, the callback reads
    destination shape 0 without a guard: out of range when the thunk has
    no destination shape, and otherwise followed by one call of the
    primitive with an empty destination list, whose status, OK included,
    becomes the event. *)
Theorem Execute_zero_destinations (inf : Info) (par : OpParams)
    (buffers : OpBuffers) s :
  destination_buffers buffers = [] ->
  exists p s1 thunk,
    Create inf par buffers s = Ret (Value p) s1 /\
    deref s1 p = Some thunk /\
    buffers = op_buffers thunk /\
    forall params s0,
      (forall e, GetOpDeviceMemory thunk params = NotOk e ->
                 Execute thunk params s0 = Ret (ErrorEvent e) s0) /\
      (forall data,
          GetOpDeviceMemory thunk params = Value data ->
          destination data = [] /\
          (vlog_defined thunk data (world s0) = false ->
           Execute thunk params s0 = Undefined) /\
          (vlog_defined thunk data (world s0) = true ->
           (forall e w1,
               GetCommunicator (collective_params params)
                 (GetRendezvousKey thunk (collective_params params)) (world s0)
               = (NotOk e, w1) ->
               exists s', Execute thunk params s0 = Ret (ErrorEvent e) s' /\
                          count_AllToAll (new_events s0 s') = 0%nat) /\
           (forall comm w1,
               GetCommunicator (collective_params params)
                 (GetRendezvousKey thunk (collective_params params)) (world s0)
               = (Value comm, w1) ->
               (destination_shapes buffers = [] ->
                Execute thunk params s0 = Undefined) /\
               (forall shape st w2,
                   nth_error (destination_shapes buffers) 0 = Some shape ->
                   comm_AllToAll comm
                     (GetRendezvousKey thunk (collective_params params))
                     (ByteSizeOf shape) (map opaque (source data)) []
                     DefaultCollectiveTimeout w1 = (st, w2) ->
                   exists s',
                     Execute thunk params s0 = Ret (event_of_status st) s' /\
                     new_events s0 s'
                     = [EvGetCommunicator
                          (GetRendezvousKey thunk (collective_params params));
                        EvAllToAll
                          (GetRendezvousKey thunk (collective_params params))
                          (ByteSizeOf shape) (map opaque (source data)) []
                          DefaultCollectiveTimeout])))).
Proof.
  intros Hbuf.
  exists (length (heap s)). eexists. eexists.
  split; [apply Create_run|]. split; [apply deref_Create|].
  split; [reflexivity|].
  intros params s0.
  set (thunk := mkCollectiveThunk kAllToAll inf par buffers).
  pose proof (Execute_outcome thunk params s0) as O.
  split.
  - intros e He. unfold Execute. now rewrite He.
  - intros data Hdata.
    assert (Hdst : destination data = [])
      by (now apply (GetOpDeviceMemory_no_destination thunk params)).
    split; [exact Hdst|]. split.
    + intros Hlog. inversion O; congruence.
    + intros Hlog. split.
      * intros e w1 Hcomm. inversion O; try congruence.
        match goal with H : GetCommunicator _ _ _ = (NotOk ?e', ?w') |- _ =>
          rewrite Hcomm in H; inversion H; subst e' w' end.
        eexists. split; [reflexivity|]. now rewrite new_events_app.
      * intros comm w1 Hcomm. split.
        -- intros Hnil. inversion O; try congruence.
           match goal with H : nth_error _ 0 = Some _ |- _ =>
             simpl in H; rewrite Hnil in H; discriminate H end.
        -- intros shape st w2 Hshape Hcall.
           assert (Hshape' : nth_error (destination_shapes (op_buffers thunk)) 0
                             = Some shape) by exact Hshape.
           inversion O
             as [ | | | data0 comm0 w0 shape0 st0 w3 Hd0 Hl0 Hc0 Hs0 Ha0 Heq | ];
             try congruence.
           assert (data0 = data) by congruence; subst data0.
           assert (comm0 = comm /\ w0 = w1) as [? ?] by (split; congruence).
           subst comm0 w0.
           assert (shape0 = shape) by congruence; subst shape0.
           rewrite Hdst in Ha0.
           change (map opaque (@nil DeviceMemoryBase)) with (@nil ptr) in Ha0.
           rewrite Hcall in Ha0. inversion Ha0; subst st0 w3.
           eexists. split; [reflexivity|].
           now rewrite new_events_app, Hdst.
Qed.

(** C3 (amended). The byte size of every call of the primitive made by
    [Execute] is elementCount times elementByteWidth of destination
    shape 0.  The other destination shapes are not looked at: they carry
    that byte size when the destination shapes of the thunk have one
    common byte size. *)
Theorem Execute_byte_size thunk params s ev s' key n ins outs t :
  Execute thunk params s = Ret ev s' ->
  In (EvAllToAll key n ins outs t) (new_events s s') ->
  exists shape,
    nth_error (destination_shapes (op_buffers thunk)) 0 = Some shape /\
    n = ElementsIn shape * ByteSizeOfPrimitiveType (element_type shape) /\
    ((forall sh sh', In sh (destination_shapes (op_buffers thunk)) ->
                     In sh' (destination_shapes (op_buffers thunk)) ->
                     ByteSizeOf sh = ByteSizeOf sh') ->
     forall sh, In sh (destination_shapes (op_buffers thunk)) ->
                ByteSizeOf sh = n).
Proof.
  intros Hrun Hin.
  destruct (Execute_call_inv _ _ _ _ _ _ _ _ _ _ Hrun Hin)
    as (data & comm & w1 & shape & st & _ & _ & Hshape & _ & _ & _ & Hn & _).
  exists shape. split; [assumption|]. split; [exact Hn|].
  intros Huniform sh Hsh. subst n. apply Huniform; [assumption|].
  eapply nth_error_In; eassumption.
Qed.


(** C9. In every call of the primitive made by [Execute], the source
    pointers are the addresses of the resolved source regions in operand
    order, the destination pointers those of the resolved destination
    regions in operand order, and the key is the rendezvous key that the
    collective base derived for this call. *)
Theorem Execute_buffers thunk params data s ev s' key n ins outs t :
  GetOpDeviceMemory thunk params = Value data ->
  Execute thunk params s = Ret ev s' ->
  In (EvAllToAll key n ins outs t) (new_events s s') ->
  ins = map opaque (source data) /\
  outs = map opaque (destination data) /\
  (forall i, nth_error ins i = option_map opaque (nth_error (source data) i)) /\
  (forall i, nth_error outs i
             = option_map opaque (nth_error (destination data) i)) /\
  key = GetRendezvousKey thunk (collective_params params) /\
  In (EvGetCommunicator key) (new_events s s').
Proof.
  intros Hdata Hrun Hin.
  destruct (Execute_call_inv _ _ _ _ _ _ _ _ _ _ Hrun Hin)
    as (data' & comm & w1 & shape & st & Hdata' & _ & _ & _ & _ & Hkey & _
        & Hins & Houts & _ & Hnew).
  rewrite Hdata in Hdata'. inversion Hdata'; subst data'.
  subst ins outs. repeat split; try assumption.
  - intros i. apply nth_error_map.
  - intros i. apply nth_error_map.
  - rewrite Hnew. now left.
Qed.

(** C10. The byte size passed to the primitive is a function of
    destination shape 0 alone: two runs of [Execute], on any two thunks
    and any parameters, whose thunks agree on destination shape 0 pass the
    same byte size, whatever their other destination shapes and their
    source shapes are. *)
Theorem Execute_byte_size_from_destination_0
    thunk1 thunk2 params1 params2 s1 s2 ev1 ev2 s1' s2'
    key1 key2 n1 n2 ins1 ins2 outs1 outs2 t1 t2 :
  nth_error (destination_shapes (op_buffers thunk1)) 0
  = nth_error (destination_shapes (op_buffers thunk2)) 0 ->
  Execute thunk1 params1 s1 = Ret ev1 s1' ->
  Execute thunk2 params2 s2 = Ret ev2 s2' ->
  In (EvAllToAll key1 n1 ins1 outs1 t1) (new_events s1 s1') ->
  In (EvAllToAll key2 n2 ins2 outs2 t2) (new_events s2 s2') ->
  n1 = n2 /\
  exists shape,
    nth_error (destination_shapes (op_buffers thunk1)) 0 = Some shape /\
    n1 = ByteSizeOf shape.
Proof.
  intros Hsame Hrun1 Hrun2 Hin1 Hin2.
  destruct (Execute_call_inv _ _ _ _ _ _ _ _ _ _ Hrun1 Hin1)
    as (? & ? & ? & shape1 & ? & _ & _ & Hshape1 & _ & _ & _ & Hn1 & _).
  destruct (Execute_call_inv _ _ _ _ _ _ _ _ _ _ Hrun2 Hin2)
    as (? & ? & ? & shape2 & ? & _ & _ & Hshape2 & _ & _ & _ & Hn2 & _).
  rewrite Hsame, Hshape2 in Hshape1. inversion Hshape1; subst shape2.
  split; [congruence|]. exists shape1. split; [congruence|assumption].
Qed.

(** *** The exchange *)

Lemma read_write_same (m : Memory) p bs n :
  length bs = Z.to_nat n ->
  read (write m p bs) p n = bs.
Proof.
  intros Hlen. unfold read. rewrite <- Hlen.
  apply nth_ext with (d := Byte.x00) (d' := Byte.x00).
  - now rewrite length_map, length_seq.
  - intros k Hk. rewrite length_map, length_seq in Hk.
    set (f := fun j : nat => write m p bs (p + Z.of_nat j)).
    rewrite nth_indep with (d' := f 0%nat)
      by (now rewrite length_map, length_seq).
    rewrite map_nth, seq_nth by assumption. subst f. simpl.
    unfold write.
    destruct (Z.leb_spec p (p + Z.of_nat k)); [|lia].
    destruct (Z.ltb_spec (p + Z.of_nat k) (p + Z.of_nat (length bs))); [|lia].
    simpl. replace (Z.to_nat (p + Z.of_nat k - p)) with k by lia.
    now apply nth_indep.
Qed.

Lemma read_write_apart (m : Memory) p bs q n :
  length bs = Z.to_nat n ->
  apart n p q ->
  read (write m p bs) q n = read m q n.
Proof.
  intros Hlen Hapart. unfold read. apply map_ext_in.
  intros k Hk. apply in_seq in Hk. unfold write, apart in *.
  destruct (Z.leb_spec p (q + Z.of_nat k)); simpl; [|reflexivity].
  destruct (Z.ltb_spec (q + Z.of_nat k) (p + Z.of_nat (length bs)));
    [|reflexivity].
  lia.
Qed.

(** A list of writes leaves [bs] at [dst] when it contains that write, or
    [bs] is there already, and every write is either that one or apart
    from [dst]. *)
Lemma apply_writes_target dst bs n :
  length bs = Z.to_nat n ->
  forall ws (m : Memory),
    Forall (fun w => length (snd w) = Z.to_nat n /\
                     (w = (dst, bs) \/ apart n (fst w) dst)) ws ->
    In (dst, bs) ws \/ read m dst n = bs ->
    read (apply_writes ws m) dst n = bs.
Proof.
  intros Hlen. induction ws as [|w ws IH]; intros m Hall Hin; simpl.
  - destruct Hin as [[]|Hm]. exact Hm.
  - inversion Hall as [|? ? [Hw Hcase] Hrest]; subst.
    apply IH; [assumption|].
    destruct Hcase as [->|Hapart].
    + right. simpl. now apply read_write_same.
    + destruct Hin as [[->|Hin]|Hm].
      * right. simpl. now apply read_write_same.
      * now left.
      * right. now rewrite read_write_apart.
Qed.

Lemma length_read (m : Memory) p n : length (read m p n) = Z.to_nat n.
Proof. unfold read. now rewrite length_map, length_seq. Qed.

Lemma in_deliveries calls (m0 : Memory) w :
  In w (deliveries calls m0) <->
  exists P i cP ci dst src,
    nth_error calls P = Some cP /\
    nth_error calls i = Some ci /\
    nth_error (call_recv cP) i = Some dst /\
    nth_error (call_send ci) P = Some src /\
    w = (dst, read m0 src (call_bytes cP)).
Proof.
  unfold deliveries. split.
  - intros Hin. apply in_flat_map in Hin. destruct Hin as (P & _ & Hin).
    apply in_flat_map in Hin. destruct Hin as (i & _ & Hin).
    unfold delivery in Hin.
    destruct (nth_error calls P) as [cP|] eqn:HP; [|contradiction].
    destruct (nth_error calls i) as [ci|] eqn:Hi; [|contradiction].
    destruct (nth_error (call_recv cP) i) as [dst|] eqn:Hdst; [|contradiction].
    destruct (nth_error (call_send ci) P) as [src|] eqn:Hsrc; [|contradiction].
    destruct Hin as [<-|[]].
    exists P, i, cP, ci, dst, src. now rewrite Hi.
  - intros (P & i & cP & ci & dst & src & HP & Hi & Hdst & Hsrc & ->).
    apply in_flat_map. exists P. split.
    + apply in_seq. split; [lia|]. simpl.
      apply nth_error_Some. congruence.
    + apply in_flat_map. exists i. split.
      * apply in_seq. split; [lia|]. simpl.
        apply nth_error_Some. congruence.
      * unfold delivery. rewrite HP, Hi, Hdst, Hsrc. now left.
Qed.

(** The call a successful participant contributes carries the byte size of
    destination shape 0 and the addresses of its resolved regions. *)
Lemma participant_call_ok (x : Participant W) d n :
  resolves_uniformly n x d ->
  succeeds x ->
  exists key,
    participant_call x
    = Some (mkCall key n (map opaque (source d)) (map opaque (destination d))).
Proof.
  intros (Hd & (sh & Hsh & Hn) & _) (s' & Hrun).
  unfold participant_call. rewrite Hrun.
  execute_cases Hrun.
  rewrite new_events_app. simpl.
  eexists. repeat f_equal; congruence.
Qed.

Lemma group_calls (ps : list (Participant W)) datas n :
  Forall2 (resolves_uniformly n) ps datas ->
  Forall succeeds ps ->
  exists calls,
    all_some (map participant_call ps) = Some calls /\
    Forall2 (fun d c => call_bytes c = n /\
                        call_send c = map opaque (source d) /\
                        call_recv c = map opaque (destination d))
            datas calls.
Proof.
  induction 1 as [|x d ps datas Hx _ IH]; intros Hsucc.
  - exists []. split; [reflexivity|constructor].
  - inversion Hsucc as [|? ? Hs Hrest]; subst.
    destruct (IH Hrest) as (calls & Hcalls & Hrel).
    destruct (participant_call_ok x d n Hx Hs) as (key & Hcall).
    eexists. simpl. rewrite Hcall, Hcalls. split; [reflexivity|].
    constructor; [|assumption]. simpl. auto.
Qed.

Lemma Forall2_nth_error_r {A B} (R : A -> B -> Prop) l l' :
  Forall2 R l l' ->
  forall k b, nth_error l' k = Some b ->
              exists a, nth_error l k = Some a /\ R a b.
Proof.
  induction 1 as [|a b l l' Hab _ IH]; intros [|k] c Hk; simpl in *;
    try discriminate.
  - inversion Hk; subst. eauto.
  - eauto.
Qed.

Lemma Forall2_nth_error_l {A B} (R : A -> B -> Prop) l l' :
  Forall2 R l l' ->
  forall k a, nth_error l k = Some a ->
              exists b, nth_error l' k = Some b /\ R a b.
Proof.
  induction 1 as [|a b l l' Hab _ IH]; intros [|k] c Hk; simpl in *;
    try discriminate.
  - inversion Hk; subst. eauto.
  - eauto.
Qed.

Lemma nth_error_map_Some {A B} (f : A -> B) l k b :
  nth_error (map f l) k = Some b ->
  exists a, nth_error l k = Some a /\ b = f a.
Proof.
  rewrite nth_error_map. destruct (nth_error l k) as [a|]; simpl;
    [|discriminate].
  intros H; inversion H. eauto.
Qed.

(** C7. In a group of participants whose operands are resolved, uniform
    (every region has the byte size of destination shape 0) and whose
    destination regions do not overlap, when [Execute] succeeds on every
    participant the exchange takes place, and afterwards destination
    buffer [i] of participant [P] holds exactly the bytes that source
    buffer [P] of participant [i] held before. *)
Theorem AllToAll_transpose (ps : list (Participant W))
    (datas : list OpDeviceMemory) (n : Z) (m0 : Memory) :
  Forall2 (resolves_uniformly n) ps datas ->
  Forall succeeds ps ->
  destinations_apart n datas ->
  exists m',
    GroupExecute ps m0 = Some m' /\
    forall P i dP di dst src,
      nth_error datas P = Some dP ->
      nth_error datas i = Some di ->
      nth_error (destination dP) i = Some dst ->
      nth_error (source di) P = Some src ->
      contents m' dst = contents m0 src.
Proof.
  intros Hres Hsucc Hapart.
  destruct (group_calls ps datas n Hres Hsucc) as (calls & Hcalls & Hrel).
  unfold GroupExecute. rewrite Hcalls. eexists. split; [reflexivity|].
  intros P i dP di dst src HP Hi Hdst Hsrc.
  destruct (Forall2_nth_error_l _ _ _ Hrel P dP HP) as (cP & HcP & HbP & _ & HrP).
  destruct (Forall2_nth_error_l _ _ _ Hrel i di Hi) as (ci & Hci & _ & HsI & _).
  destruct (Forall2_nth_error_r _ _ _ Hres P dP HP) as (xP & _ & _ & _ & _ & HszP).
  destruct (Forall2_nth_error_r _ _ _ Hres i di Hi) as (xi & _ & _ & _ & HszI & _).
  assert (Hdn : size dst = n).
  { rewrite Forall_forall in HszP. apply HszP. eapply nth_error_In; eassumption. }
  assert (Hsn : size src = n).
  { rewrite Forall_forall in HszI. apply HszI. eapply nth_error_In; eassumption. }
  unfold contents, exchange. rewrite Hdn, Hsn.
  apply apply_writes_target.
  - apply length_read.
  - apply Forall_forall. intros w Hw.
    apply in_deliveries in Hw.
    destruct Hw as (Q & j & cQ & cj & dq & sq & HQ & Hj & Hdq & Hsq & ->).
    destruct (Forall2_nth_error_r _ _ _ Hrel Q cQ HQ)
      as (dQ & HdQ & HbQ & _ & HrQ).
    destruct (Forall2_nth_error_r _ _ _ Hrel j cj Hj)
      as (dj & Hdj & _ & HsJ & _).
    simpl. split; [rewrite HbQ; apply length_read|].
    rewrite HrQ in Hdq. apply nth_error_map_Some in Hdq.
    destruct Hdq as (a & Ha & ->).
    destruct (Nat.eq_dec Q P) as [->|HQP].
    + destruct (Nat.eq_dec j i) as [->|Hji].
      * left. rewrite HdQ in HP. inversion HP; subst dQ.
        rewrite Ha in Hdst. inversion Hdst; subst a.
        rewrite Hdj in Hi. inversion Hi; subst dj.
        rewrite HsJ in Hsq. apply nth_error_map_Some in Hsq.
        destruct Hsq as (b & Hb & ->).
        rewrite Hb in Hsrc. inversion Hsrc; subst b.
        now rewrite HbQ.
      * right. apply (Hapart P j P i dQ dP a dst); try assumption. congruence.
    + right. apply (Hapart Q j P i dQ dP a dst); try assumption. congruence.
  - left. apply in_deliveries.
    exists P, i, cP, ci, (opaque dst), (opaque src).
    rewrite HrP, HsI, !nth_error_map, Hdst, Hsrc, HbP. auto.
Qed.

End Properties.

(** ** The properties on the sample inputs *)

Example ByteSizeOf_f32_2 : ByteSizeOf (f32 [2]) = 8.
Proof. reflexivity. Qed.

Example Execute_sample :
  Execute (thunk_of sample_buffers) (sample_params 4096 OkStatus) empty_state
  = Ret OkExecuteEvent (state_after_call 4096).
Proof. reflexivity. Qed.

Example Execute_sample_timed_out :
  Execute (thunk_of sample_buffers)
          (sample_params 4096 (ErrorStatus timed_out)) empty_state
  = Ret (ErrorEvent timed_out) (state_after_call 4096).
Proof. reflexivity. Qed.

(** Without any destination shape the callback reads out of range. *)
Example Execute_no_destination :
  Execute (thunk_of no_destination_buffers) (sample_params 4096 OkStatus)
          empty_state
  = Undefined.
Proof. reflexivity. Qed.

(** With shape vectors shorter than the operand lists, the run is defined
    when logging is off, and reads out of range when it is on. *)
Example Execute_short_shapes_quiet :
  Execute (thunk_of short_shapes_buffers) (sample_params 4096 OkStatus)
          empty_state
  = Ret OkExecuteEvent (state_after_call 4096).
Proof. reflexivity. Qed.

Example Execute_short_shapes_verbose :
  Execute (L := verbose) (thunk_of short_shapes_buffers)
          (sample_params 4096 OkStatus) empty_state
  = Undefined.
Proof. reflexivity. Qed.

Example Execute_sample_verbose :
  Execute (L := verbose) (thunk_of sample_buffers)
          (sample_params 4096 OkStatus) empty_state
  = Ret OkExecuteEvent (state_after_call 4096).
Proof. reflexivity. Qed.

(** Two participants: destination 1 of participant 0 receives source 0 of
    participant 1, and destination 0 of participant 1 receives source 1 of
    participant 0. *)
Example GroupExecute_sample :
  option_map (fun m' => (read m' 4128 8, read m' 4144 8,
                         read m' 8288 8, read m' 8304 8))
             (GroupExecute sample_group sample_memory)
  = Some (read sample_memory 4096 8, read sample_memory 8256 8,
          read sample_memory 4112 8, read sample_memory 8272 8).
Proof. vm_compute. reflexivity. Qed.

Lemma Execute_resolution_failure_witness :
  exists s',
    Execute (thunk_of sample_buffers)
            (mkExecuteParams allocations_without_1 (collectives OkStatus))
            empty_state
    = Ret (ErrorEvent unassigned) s' /\
    s' = empty_state /\
    new_events empty_state s' = [] /\
    count_AllToAll (new_events empty_state s') = 0%nat.
Proof.
  apply (Execute_resolution_failure (W := unit)).
  reflexivity.
Defined.

(** C2, as stated, fails: without destination slices [Create] succeeds,
    and with a resolver and a communicator that both succeed [Execute]
    returns the OK event after a call of the primitive with empty pointer
    lists, not a failed event. *)
Lemma zero_destinations_counterexample :
  destination_buffers shape_only_buffers = [] /\
  Create sample_info sample_op_params shape_only_buffers empty_state
  = Ret (Value 0%nat) (mkState [thunk_of shape_only_buffers] [] tt) /\
  deref (mkState [thunk_of shape_only_buffers] [] tt) 0
  = Some (thunk_of shape_only_buffers) /\
  Execute (thunk_of shape_only_buffers) (sample_params 4096 OkStatus)
          (mkState [thunk_of shape_only_buffers] [] tt)
  = Ret OkExecuteEvent
        (mkState [thunk_of shape_only_buffers]
           [EvGetCommunicator sample_key;
            EvAllToAll sample_key 8 [] [] DefaultCollectiveTimeout]
           tt) /\
  ~ (exists e s',
        Execute (thunk_of shape_only_buffers) (sample_params 4096 OkStatus)
                (mkState [thunk_of shape_only_buffers] [] tt)
        = Ret (ErrorEvent e) s').
Proof.
  repeat split.
  intros (e & s' & H). discriminate H.
Qed.

Lemma Execute_zero_destinations_witness :
  exists p s1 thunk,
    Create sample_info sample_op_params shape_only_buffers empty_state
    = Ret (Value p) s1 /\
    deref s1 p = Some thunk /\
    shape_only_buffers = op_buffers thunk /\
    forall (params : ExecuteParams unit) s0,
      (forall e, GetOpDeviceMemory thunk params = NotOk e ->
                 Execute thunk params s0 = Ret (ErrorEvent e) s0) /\
      (forall data,
          GetOpDeviceMemory thunk params = Value data ->
          destination data = [] /\
          (vlog_defined thunk data (world s0) = false ->
           Execute thunk params s0 = Undefined) /\
          (vlog_defined thunk data (world s0) = true ->
           (forall e w1,
               GetCommunicator (collective_params params)
                 (GetRendezvousKey thunk (collective_params params)) (world s0)
               = (NotOk e, w1) ->
               exists s', Execute thunk params s0 = Ret (ErrorEvent e) s' /\
                          count_AllToAll (new_events s0 s') = 0%nat) /\
           (forall comm w1,
               GetCommunicator (collective_params params)
                 (GetRendezvousKey thunk (collective_params params)) (world s0)
               = (Value comm, w1) ->
               (destination_shapes shape_only_buffers = [] ->
                Execute thunk params s0 = Undefined) /\
               (forall shape st w2,
                   nth_error (destination_shapes shape_only_buffers) 0
                   = Some shape ->
                   comm_AllToAll comm
                     (GetRendezvousKey thunk (collective_params params))
                     (ByteSizeOf shape) (map opaque (source data)) []
                     DefaultCollectiveTimeout w1 = (st, w2) ->
                   exists s',
                     Execute thunk params s0 = Ret (event_of_status st) s' /\
                     new_events s0 s'
                     = [EvGetCommunicator
                          (GetRendezvousKey thunk (collective_params params));
                        EvAllToAll
                          (GetRendezvousKey thunk (collective_params params))
                          (ByteSizeOf shape) (map opaque (source data)) []
                          DefaultCollectiveTimeout])))).
Proof.
  apply (Execute_zero_destinations (W := unit)); reflexivity.
Defined.


(** C3, as stated, fails: with destination shapes f32[2] and f32[4] the
    call succeeds and passes 8 bytes, while destination 1 has 16 bytes,
    by its shape and by its resolved region. *)
Lemma uneven_destinations_counterexample :
  GetOpDeviceMemory (thunk_of uneven_buffers) (sample_params 4096 OkStatus)
  = Value (mkOpDeviceMemory
             [mkDeviceMemory 4096 8; mkDeviceMemory 4112 8]
             [mkDeviceMemory 4128 8; mkDeviceMemory 4144 16]) /\
  Execute (thunk_of uneven_buffers) (sample_params 4096 OkStatus) empty_state
  = Ret OkExecuteEvent (state_after_call 4096) /\
  In (EvAllToAll sample_key 8 [4096; 4112] [4128; 4144]
                 DefaultCollectiveTimeout)
     (new_events empty_state (state_after_call 4096)) /\
  nth_error (destination_shapes (op_buffers (thunk_of uneven_buffers))) 1
  = Some (f32 [4]) /\
  ByteSizeOf (f32 [4]) = 16 /\
  ~ (forall sh, In sh (destination_shapes (op_buffers (thunk_of uneven_buffers)))
                -> ByteSizeOf sh = 8).
Proof.
  repeat split.
  - right. left. reflexivity.
  - intros H. specialize (H (f32 [4])). simpl in H.
    assert (ByteSizeOf (f32 [4]) = 8) as Habs by (apply H; auto).
    discriminate Habs.
Qed.

Lemma Execute_byte_size_witness :
  exists shape,
    nth_error (destination_shapes (op_buffers (thunk_of sample_buffers))) 0
    = Some shape /\
    8 = ElementsIn shape * ByteSizeOfPrimitiveType (element_type shape) /\
    ((forall sh sh',
         In sh (destination_shapes (op_buffers (thunk_of sample_buffers))) ->
         In sh' (destination_shapes (op_buffers (thunk_of sample_buffers))) ->
         ByteSizeOf sh = ByteSizeOf sh') ->
     forall sh,
       In sh (destination_shapes (op_buffers (thunk_of sample_buffers))) ->
       ByteSizeOf sh = 8).
Proof.
  apply (Execute_byte_size (W := unit) (thunk_of sample_buffers)
           (sample_params 4096 OkStatus) empty_state OkExecuteEvent
           (state_after_call 4096) sample_key 8 [4096; 4112] [4128; 4144]
           DefaultCollectiveTimeout).
  - reflexivity.
  - vm_compute. right. left. reflexivity.
Defined.

Lemma Execute_once_and_propagates_witness :
  (count_AllToAll (new_events empty_state (state_after_call 4096)) <= 1)%nat /\
  (forall comm w1 key n ins outs t st w2,
      GetCommunicator (collective_params
                         (sample_params 4096 (ErrorStatus timed_out)))
        (GetRendezvousKey (thunk_of sample_buffers)
           (collective_params (sample_params 4096 (ErrorStatus timed_out))))
        (world empty_state)
      = (Value comm, w1) ->
      In (EvAllToAll key n ins outs t)
         (new_events empty_state (state_after_call 4096)) ->
      comm_AllToAll comm key n ins outs t w1 = (st, w2) ->
      ErrorEvent timed_out = event_of_status st /\
      world (state_after_call 4096) = w2) /\
  (forall e w1,
      GetCommunicator (collective_params
                         (sample_params 4096 (ErrorStatus timed_out)))
        (GetRendezvousKey (thunk_of sample_buffers)
           (collective_params (sample_params 4096 (ErrorStatus timed_out))))
        (world empty_state)
      = (NotOk e, w1) ->
      forall data,
        GetOpDeviceMemory (thunk_of sample_buffers)
                          (sample_params 4096 (ErrorStatus timed_out))
        = Value data ->
        ErrorEvent timed_out = ErrorEvent e /\
        count_AllToAll (new_events empty_state (state_after_call 4096)) = 0%nat).
Proof.
  apply (Execute_once_and_propagates (W := unit) (thunk_of sample_buffers)
           (sample_params 4096 (ErrorStatus timed_out)) empty_state
           (ErrorEvent timed_out) (state_after_call 4096)).
  reflexivity.
Defined.

Lemma Execute_timeout_witness : 30 * 60 = DefaultCollectiveTimeout.
Proof.
  apply (Execute_timeout (W := unit) (thunk_of sample_buffers)
           (sample_params 4096 OkStatus) empty_state OkExecuteEvent
           (state_after_call 4096) sample_key 8 [4096; 4112] [4128; 4144]
           (30 * 60)).
  - reflexivity.
  - vm_compute. right. left. reflexivity.
Defined.

Lemma Execute_buffers_witness :
  [4096; 4112] = map opaque (source (sample_resolved 4096)) /\
  [4128; 4144] = map opaque (destination (sample_resolved 4096)) /\
  (forall i, nth_error [4096; 4112] i
             = option_map opaque (nth_error (source (sample_resolved 4096)) i)) /\
  (forall i, nth_error [4128; 4144] i
             = option_map opaque
                 (nth_error (destination (sample_resolved 4096)) i)) /\
  sample_key = GetRendezvousKey (thunk_of sample_buffers)
                 (collective_params (sample_params 4096 OkStatus)) /\
  In (EvGetCommunicator sample_key)
     (new_events empty_state (state_after_call 4096)).
Proof.
  apply (Execute_buffers (W := unit) (thunk_of sample_buffers)
           (sample_params 4096 OkStatus) (sample_resolved 4096) empty_state
           OkExecuteEvent (state_after_call 4096) sample_key 8
           [4096; 4112] [4128; 4144] DefaultCollectiveTimeout).
  - reflexivity.
  - reflexivity.
  - vm_compute. right. left. reflexivity.
Defined.

Lemma Execute_byte_size_from_destination_0_witness :
  8 = 8 /\
  exists shape,
    nth_error (destination_shapes (op_buffers (thunk_of sample_buffers))) 0
    = Some shape /\
    8 = ByteSizeOf shape.
Proof.
  apply (Execute_byte_size_from_destination_0 (W := unit)
           (thunk_of sample_buffers) (thunk_of other_buffers)
           (sample_params 4096 OkStatus) (sample_params 8192 OkStatus)
           empty_state empty_state OkExecuteEvent OkExecuteEvent
           (state_after_call 4096) (state_after_call 8192)
           sample_key sample_key 8 8 [4096; 4112] [8192; 8208]
           [4128; 4144] [8224; 8240]
           DefaultCollectiveTimeout DefaultCollectiveTimeout).
  - reflexivity.
  - reflexivity.
  - reflexivity.
  - vm_compute. right. left. reflexivity.
  - vm_compute. right. left. reflexivity.
Defined.

Ltac pick_entry H k :=
  destruct k as [|[|[|k]]]; simpl in H; try discriminate H;
  inversion H; clear H; subst.

Lemma AllToAll_transpose_witness :
  exists m',
    GroupExecute sample_group sample_memory = Some m' /\
    forall P i dP di dst src,
      nth_error [sample_resolved 4096; sample_resolved 8256] P = Some dP ->
      nth_error [sample_resolved 4096; sample_resolved 8256] i = Some di ->
      nth_error (destination dP) i = Some dst ->
      nth_error (source di) P = Some src ->
      contents m' dst = contents sample_memory src.
Proof.
  apply (AllToAll_transpose (W := unit) sample_group
           [sample_resolved 4096; sample_resolved 8256] 8 sample_memory).
  - repeat (apply Forall2_cons || apply Forall2_nil);
      (split; [reflexivity|]);
      (split; [exists (f32 [2]); split; reflexivity|]);
      split; repeat constructor.
  - repeat constructor; eexists; reflexivity.
  - intros P i Q j dP dQ a b HP HQ Ha Hb Hne. unfold apart.
    pick_entry HP P; pick_entry HQ Q; pick_entry Ha i; pick_entry Hb j;
      simpl; first [lia | exfalso; apply Hne; reflexivity].
Defined.

(** ** Further properties of the callback and of [Execute] *)

Section Further.

Context {W : Type} {L : Logging W}.

Implicit Types (s : State W) (params : ExecuteParams W) (thunk : AllToAllThunk).

Ltac outcome_cases H :=
  match type of H with
  | Execute ?t ?p ?s = _ =>
      let O := fresh "O" in
      pose proof (Execute_outcome t p s) as O;
      rewrite H in O; inversion O; subst; clear O
  end.

(** X1. Whoever runs the callback, a run that returns made exactly one
    external call, the call of the primitive on the key it was given, and
    its status is the answer of the communicator, OK or not, unchanged; the
    allocated objects are untouched. *)
Theorem AllToAllCallback_once thunk data key (comm : CollectivesCommunicator W)
    s st s' :
  AllToAllCallback thunk data key comm s = Ret st s' ->
  exists shape,
    nth_error (destination_shapes (op_buffers thunk)) 0 = Some shape /\
    new_events s s'
    = [EvAllToAll key (ByteSizeOf shape) (map opaque (source data))
                  (map opaque (destination data)) DefaultCollectiveTimeout] /\
    comm_AllToAll comm key (ByteSizeOf shape) (map opaque (source data))
      (map opaque (destination data)) DefaultCollectiveTimeout (world s)
    = (st, world s') /\
    heap s' = heap s.
Proof.
  intros Hrun.
  destruct (nth_error (destination_shapes (op_buffers thunk)) 0)
    as [shape|] eqn:Hshape.
  - rewrite (AllToAllCallback_run _ _ _ _ shape) in Hrun by assumption.
    destruct (comm_AllToAll comm _ _ _ _ _ (world s)) as [st0 w2] eqn:Hcall.
    inversion Hrun; subst. exists shape.
    rewrite new_events_app. simpl. auto.
  - unfold AllToAllCallback, destination_shape, bind in Hrun.
    rewrite Hshape in Hrun. discriminate Hrun.
Qed.

(** X2. The callback reads the thunk only through the byte size of
    destination shape 0, and the resolved operands only through their
    addresses: element types, dimensions, the other shapes and the sizes
    of the resolved regions do not matter. *)
Theorem AllToAllCallback_reads thunk1 thunk2 data1 data2 key
    (comm : CollectivesCommunicator W) s :
  option_map ByteSizeOf (nth_error (destination_shapes (op_buffers thunk1)) 0)
  = option_map ByteSizeOf (nth_error (destination_shapes (op_buffers thunk2)) 0) ->
  map opaque (source data1) = map opaque (source data2) ->
  map opaque (destination data1) = map opaque (destination data2) ->
  AllToAllCallback thunk1 data1 key comm s
  = AllToAllCallback thunk2 data2 key comm s.
Proof.
  intros Hsize Hsrc Hdst.
  destruct (nth_error (destination_shapes (op_buffers thunk1)) 0)
    as [sh1|] eqn:H1;
    destruct (nth_error (destination_shapes (op_buffers thunk2)) 0)
      as [sh2|] eqn:H2; simpl in Hsize; try discriminate.
  - rewrite (AllToAllCallback_run _ _ _ _ sh1), (AllToAllCallback_run _ _ _ _ sh2)
      by assumption.
    inversion Hsize as [Hn]. now rewrite Hn, Hsrc, Hdst.
  - unfold AllToAllCallback, destination_shape, bind. now rewrite H1, H2.
Qed.

(** X3. [Execute] has no defined result in exactly two situations, both
    after a successful resolution of the operands: logging at level 3 is
    on and a shape or slice vector is shorter than the resolved list it is
    logged with; or the communicator was obtained and the thunk has no
    destination shape. *)
Theorem Execute_undefined_iff thunk params s :
  Execute thunk params s = Undefined <->
  exists data,
    GetOpDeviceMemory thunk params = Value data /\
    ((VLOG_IS_ON 3 (world s) = true /\ vlog_in_range thunk data = false) \/
     (destination_shapes (op_buffers thunk) = [] /\
      exists comm w1,
        GetCommunicator (collective_params params)
          (GetRendezvousKey thunk (collective_params params)) (world s)
        = (Value comm, w1))).
Proof.
  pose proof (Execute_outcome thunk params s) as O. split.
  - intros Hrun. rewrite Hrun in O. inversion O; subst.
    + exists data. split; [assumption|]. right. split; [|eauto].
      destruct (destination_shapes (op_buffers thunk));
        [reflexivity|discriminate].
    + exists data. split; [assumption|]. left.
      match goal with H : vlog_defined _ _ _ = false |- _ =>
        unfold vlog_defined in H; apply orb_false_iff in H;
        destruct H as [Hon Hrange] end.
      split; [|assumption]. now apply negb_false_iff.
  - intros (data & Hdata & [[Hon Hrange]|(Hnil & comm & w1 & Hcomm)]).
    + assert (vlog_defined thunk data (world s) = false)
        by (unfold vlog_defined; now rewrite Hon, Hrange).
      inversion O; congruence.
    + inversion O; try congruence.
      match goal with H : nth_error _ 0 = Some _ |- _ =>
        rewrite Hnil in H; discriminate H end.
Qed.

(** X4. [Execute] returns the OK event only after one call of the
    primitive that the communicator answered with OK: the run resolved the
    operands, obtained a communicator, and made exactly the request for
    the communicator followed by that call. *)
Theorem Execute_success thunk params s s' :
  Execute thunk params s = Ret OkExecuteEvent s' ->
  exists data comm w1 shape,
    GetOpDeviceMemory thunk params = Value data /\
    GetCommunicator (collective_params params)
      (GetRendezvousKey thunk (collective_params params)) (world s)
    = (Value comm, w1) /\
    nth_error (destination_shapes (op_buffers thunk)) 0 = Some shape /\
    comm_AllToAll comm (GetRendezvousKey thunk (collective_params params))
      (ByteSizeOf shape) (map opaque (source data))
      (map opaque (destination data)) DefaultCollectiveTimeout w1
    = (OkStatus, world s') /\
    new_events s s'
    = [EvGetCommunicator (GetRendezvousKey thunk (collective_params params));
       EvAllToAll (GetRendezvousKey thunk (collective_params params))
         (ByteSizeOf shape) (map opaque (source data))
         (map opaque (destination data)) DefaultCollectiveTimeout] /\
    count_AllToAll (new_events s s') = 1%nat.
Proof.
  intros Hrun. outcome_cases Hrun.
  destruct st as [|e]; [|discriminate].
  exists data, comm, w1, shape. rewrite new_events_app.
  repeat split; assumption.
Qed.

(** X5. A failed event has one of three origins, and the external calls
    of the run tell which: none when the resolution failed (the state is
    then unchanged), only the request for the communicator when no
    communicator was obtained, and that request followed by one call of
    the primitive when the communicator answered with the error. *)
Theorem Execute_failure_origin thunk params s e s' :
  Execute thunk params s = Ret (ErrorEvent e) s' ->
  (GetOpDeviceMemory thunk params = NotOk e /\ s' = s /\
   new_events s s' = []) \/
  (exists data w1,
      GetOpDeviceMemory thunk params = Value data /\
      GetCommunicator (collective_params params)
        (GetRendezvousKey thunk (collective_params params)) (world s)
      = (NotOk e, w1) /\
      world s' = w1 /\
      new_events s s'
      = [EvGetCommunicator (GetRendezvousKey thunk (collective_params params))]) \/
  (exists data comm w1 shape,
      GetOpDeviceMemory thunk params = Value data /\
      GetCommunicator (collective_params params)
        (GetRendezvousKey thunk (collective_params params)) (world s)
      = (Value comm, w1) /\
      nth_error (destination_shapes (op_buffers thunk)) 0 = Some shape /\
      comm_AllToAll comm (GetRendezvousKey thunk (collective_params params))
        (ByteSizeOf shape) (map opaque (source data))
        (map opaque (destination data)) DefaultCollectiveTimeout w1
      = (ErrorStatus e, world s') /\
      length (new_events s s') = 2%nat /\
      count_AllToAll (new_events s s') = 1%nat).
Proof.
  intros Hrun. outcome_cases Hrun.
  - left. rewrite new_events_refl. auto.
  - right. left. exists data, w1. rewrite new_events_app. auto.
  - right. right. destruct st as [|e0]; [discriminate|].
    match goal with H : event_of_status _ = _ |- _ =>
      simpl in H; inversion H; subst e0 end.
    exists data, comm, w1, shape. rewrite new_events_app.
    repeat split; assumption.
Qed.

(** X6. [Execute] keeps the allocated thunks as they are and only appends
    to the record of external calls: at most two calls, the first of which
    is the request for the communicator on the key of this call. *)
Theorem Execute_appends thunk params s ev s' :
  Execute thunk params s = Ret ev s' ->
  heap s' = heap s /\
  trace s' = trace s ++ new_events s s' /\
  (length (new_events s s') <= 2)%nat /\
  (new_events s s' = [] \/
   hd_error (new_events s s')
   = Some (EvGetCommunicator
             (GetRendezvousKey thunk (collective_params params)))).
Proof.
  intros Hrun. outcome_cases Hrun.
  - rewrite new_events_refl, app_nil_r. simpl.
    repeat split; [lia | now left].
  - rewrite new_events_app. simpl.
    repeat split; [lia | now right].
  - rewrite new_events_app. simpl.
    repeat split; [lia | now right].
Qed.

(** X7. The arguments of the call of the primitive are fixed by the thunk
    and the execution parameters: two runs from any two states, whatever
    the outside world is and whichever communicators were handed out, pass
    the same key, byte size, pointers and timeout. *)
Theorem Execute_call_arguments thunk params s1 s2 ev1 ev2 s1' s2'
    key1 key2 n1 n2 ins1 ins2 outs1 outs2 t1 t2 :
  Execute thunk params s1 = Ret ev1 s1' ->
  Execute thunk params s2 = Ret ev2 s2' ->
  In (EvAllToAll key1 n1 ins1 outs1 t1) (new_events s1 s1') ->
  In (EvAllToAll key2 n2 ins2 outs2 t2) (new_events s2 s2') ->
  EvAllToAll key1 n1 ins1 outs1 t1 = EvAllToAll key2 n2 ins2 outs2 t2.
Proof.
  intros Hrun1 Hrun2 Hin1 Hin2.
  destruct (Execute_call_inv _ _ _ _ _ _ _ _ _ _ Hrun1 Hin1)
    as (d1 & ? & ? & sh1 & ? & Hd1 & _ & Hsh1 & _ & _ & Hk1 & Hn1 & Hi1 & Ho1
        & Ht1 & _).
  destruct (Execute_call_inv _ _ _ _ _ _ _ _ _ _ Hrun2 Hin2)
    as (d2 & ? & ? & sh2 & ? & Hd2 & _ & Hsh2 & _ & _ & Hk2 & Hn2 & Hi2 & Ho2
        & Ht2 & _).
  assert (d1 = d2) by congruence. assert (sh1 = sh2) by congruence.
  subst. reflexivity.
Qed.

(** X8. [Execute] reads the thunk only through the resolution of its
    operands, the rendezvous key, the byte size of destination shape 0
    and the lengths of its shape and slice vectors: two thunks that agree
    on these behave alike from every state, whatever their info and kind
    are and whatever their source shapes and their destination shapes
    other than the byte size of the first contain. *)
Theorem Execute_reads thunk1 thunk2 params s :
  GetOpDeviceMemory thunk1 params = GetOpDeviceMemory thunk2 params ->
  GetRendezvousKey thunk1 (collective_params params)
  = GetRendezvousKey thunk2 (collective_params params) ->
  option_map ByteSizeOf (nth_error (destination_shapes (op_buffers thunk1)) 0)
  = option_map ByteSizeOf (nth_error (destination_shapes (op_buffers thunk2)) 0) ->
  length (source_shapes (op_buffers thunk1))
  = length (source_shapes (op_buffers thunk2)) ->
  length (source_buffers (op_buffers thunk1))
  = length (source_buffers (op_buffers thunk2)) ->
  length (destination_shapes (op_buffers thunk1))
  = length (destination_shapes (op_buffers thunk2)) ->
  length (destination_buffers (op_buffers thunk1))
  = length (destination_buffers (op_buffers thunk2)) ->
  Execute thunk1 params s = Execute thunk2 params s.
Proof.
  intros Hdata Hkey Hsize Hss Hsb Hds Hdb. unfold Execute. rewrite Hdata.
  destruct (GetOpDeviceMemory thunk2 params) as [data|e]; [|reflexivity].
  rewrite !Execute_vlog.
  replace (vlog_defined thunk1 data (world s))
    with (vlog_defined thunk2 data (world s))
    by (unfold vlog_defined, vlog_in_range; now rewrite Hss, Hsb, Hds, Hdb).
  destruct (vlog_defined thunk2 data (world s)); [|reflexivity].
  unfold ExecuteWithCommunicator. rewrite Hkey.
  unfold bind. destruct (emit _ s) as [[] s0|]; [|reflexivity].
  destruct (external _ s0) as [[comm|e] s1|]; try reflexivity.
  destruct (nth_error (destination_shapes (op_buffers thunk1)) 0)
    as [sh1|] eqn:H1;
    destruct (nth_error (destination_shapes (op_buffers thunk2)) 0)
      as [sh2|] eqn:H2; simpl in Hsize; try discriminate.
  - rewrite (AllToAllCallback_run _ _ _ _ sh1), (AllToAllCallback_run _ _ _ _ sh2)
      by assumption.
    inversion Hsize as [Hn]. now rewrite Hn.
  - unfold AllToAllCallback, destination_shape, bind. now rewrite H1, H2.
Qed.

End Further.

(** ** The further properties on the sample inputs *)

Lemma AllToAllCallback_once_witness :
  exists shape,
    nth_error (destination_shapes (op_buffers (thunk_of sample_buffers))) 0
    = Some shape /\
    new_events state_after_request (state_after_call 4096)
    = [EvAllToAll sample_key (ByteSizeOf shape)
         (map opaque (source (sample_resolved 4096)))
         (map opaque (destination (sample_resolved 4096)))
         DefaultCollectiveTimeout] /\
    comm_AllToAll (answering (ErrorStatus timed_out)) sample_key
      (ByteSizeOf shape)
      (map opaque (source (sample_resolved 4096)))
      (map opaque (destination (sample_resolved 4096)))
      DefaultCollectiveTimeout (world state_after_request)
    = (ErrorStatus timed_out, world (state_after_call 4096)) /\
    heap (state_after_call 4096) = heap state_after_request.
Proof.
  apply (AllToAllCallback_once (W := unit) (thunk_of sample_buffers)
           (sample_resolved 4096) sample_key
           (answering (ErrorStatus timed_out)) state_after_request
           (ErrorStatus timed_out) (state_after_call 4096)).
  reflexivity.
Defined.

Lemma AllToAllCallback_reads_witness :
  AllToAllCallback (thunk_of sample_buffers) (sample_resolved 4096)
                   sample_key (answering OkStatus) empty_state
  = AllToAllCallback other_thunk (resized_resolved 4096)
                     sample_key (answering OkStatus) empty_state.
Proof.
  apply (AllToAllCallback_reads (W := unit)); reflexivity.
Defined.

Lemma Execute_success_witness :
  exists data comm w1 shape,
    GetOpDeviceMemory (thunk_of sample_buffers) (sample_params 4096 OkStatus)
    = Value data /\
    GetCommunicator (collective_params (sample_params 4096 OkStatus))
      (GetRendezvousKey (thunk_of sample_buffers)
         (collective_params (sample_params 4096 OkStatus)))
      (world empty_state)
    = (Value comm, w1) /\
    nth_error (destination_shapes (op_buffers (thunk_of sample_buffers))) 0
    = Some shape /\
    comm_AllToAll comm
      (GetRendezvousKey (thunk_of sample_buffers)
         (collective_params (sample_params 4096 OkStatus)))
      (ByteSizeOf shape) (map opaque (source data))
      (map opaque (destination data)) DefaultCollectiveTimeout w1
    = (OkStatus, world (state_after_call 4096)) /\
    new_events empty_state (state_after_call 4096)
    = [EvGetCommunicator
         (GetRendezvousKey (thunk_of sample_buffers)
            (collective_params (sample_params 4096 OkStatus)));
       EvAllToAll
         (GetRendezvousKey (thunk_of sample_buffers)
            (collective_params (sample_params 4096 OkStatus)))
         (ByteSizeOf shape) (map opaque (source data))
         (map opaque (destination data)) DefaultCollectiveTimeout] /\
    count_AllToAll (new_events empty_state (state_after_call 4096)) = 1%nat.
Proof.
  apply (Execute_success (W := unit) (thunk_of sample_buffers)
           (sample_params 4096 OkStatus) empty_state (state_after_call 4096)).
  reflexivity.
Defined.

Lemma Execute_failure_origin_witness :
  (GetOpDeviceMemory (thunk_of sample_buffers)
     (mkExecuteParams (allocations_at 4096) no_collectives)
   = NotOk group_unavailable /\
   state_after_request = empty_state /\
   new_events empty_state state_after_request = []) \/
  (exists data w1,
      GetOpDeviceMemory (thunk_of sample_buffers)
        (mkExecuteParams (allocations_at 4096) no_collectives)
      = Value data /\
      GetCommunicator no_collectives
        (GetRendezvousKey (thunk_of sample_buffers) no_collectives)
        (world empty_state)
      = (NotOk group_unavailable, w1) /\
      world state_after_request = w1 /\
      new_events empty_state state_after_request
      = [EvGetCommunicator
           (GetRendezvousKey (thunk_of sample_buffers) no_collectives)]) \/
  (exists data comm w1 shape,
      GetOpDeviceMemory (thunk_of sample_buffers)
        (mkExecuteParams (allocations_at 4096) no_collectives)
      = Value data /\
      GetCommunicator no_collectives
        (GetRendezvousKey (thunk_of sample_buffers) no_collectives)
        (world empty_state)
      = (Value comm, w1) /\
      nth_error (destination_shapes (op_buffers (thunk_of sample_buffers))) 0
      = Some shape /\
      comm_AllToAll comm
        (GetRendezvousKey (thunk_of sample_buffers) no_collectives)
        (ByteSizeOf shape) (map opaque (source data))
        (map opaque (destination data)) DefaultCollectiveTimeout w1
      = (ErrorStatus group_unavailable, world state_after_request) /\
      length (new_events empty_state state_after_request) = 2%nat /\
      count_AllToAll (new_events empty_state state_after_request) = 1%nat).
Proof.
  apply (Execute_failure_origin (W := unit) (thunk_of sample_buffers)
           (mkExecuteParams (allocations_at 4096) no_collectives)
           empty_state group_unavailable state_after_request).
  reflexivity.
Defined.

Lemma Execute_appends_witness :
  heap (state_after_two_calls 4096) = heap (state_after_call 4096) /\
  trace (state_after_two_calls 4096)
  = trace (state_after_call 4096)
    ++ new_events (state_after_call 4096) (state_after_two_calls 4096) /\
  (length (new_events (state_after_call 4096) (state_after_two_calls 4096))
   <= 2)%nat /\
  (new_events (state_after_call 4096) (state_after_two_calls 4096) = [] \/
   hd_error (new_events (state_after_call 4096) (state_after_two_calls 4096))
   = Some (EvGetCommunicator
             (GetRendezvousKey (thunk_of sample_buffers)
                (collective_params (sample_params 4096 OkStatus))))).
Proof.
  apply (Execute_appends (W := unit) (thunk_of sample_buffers)
           (sample_params 4096 OkStatus) (state_after_call 4096)
           OkExecuteEvent (state_after_two_calls 4096)).
  reflexivity.
Defined.

Lemma Execute_call_arguments_witness :
  EvAllToAll sample_key 8 [4096; 4112] [4128; 4144] DefaultCollectiveTimeout
  = EvAllToAll sample_key 8 [4096; 4112] [4128; 4144] DefaultCollectiveTimeout.
Proof.
  apply (Execute_call_arguments (W := unit) (thunk_of sample_buffers)
           (sample_params 4096 OkStatus)
           empty_state (state_after_call 4096)
           OkExecuteEvent OkExecuteEvent
           (state_after_call 4096) (state_after_two_calls 4096)).
  - reflexivity.
  - reflexivity.
  - vm_compute. right. left. reflexivity.
  - vm_compute. right. left. reflexivity.
Defined.

Lemma Execute_reads_witness :
  Execute (L := verbose) (thunk_of sample_buffers)
          (sample_params 4096 OkStatus) empty_state
  = Execute (L := verbose) other_thunk
            (sample_params 4096 OkStatus) empty_state.
Proof.
  apply (Execute_reads (W := unit) (L := verbose)); reflexivity.
Defined.
